(** * aTRAM: assembler options and the preprocessing pipeline

    A shallow embedding of [lib/assembler.py] (option defaults, option
    validation and the program availability check) and of the
    preprocessing pipeline that [tests/test_atram_preprocessor.py]
    exercises (shard planning, FASTA export, the order of the
    preprocessing steps).

    Python strings are modelled by [string]; a character stands for the
    code point with the same number, so the strings covered are those over
    the code points 0..255.  Python integers are modelled by [Z]. *)

From Stdlib Require Import ZArith List Bool Ascii String Sorted Lia.
Import ListNotations.

Local Open Scope string_scope.
Local Open Scope Z_scope.

(** ** Python runtime: outcomes, characters, [float()] *)

Module Py.

(** A call either returns a value or leaves the interpreter through
    [SystemExit]; the payload is what the user gets to see. *)
Inductive outcome (A : Type) : Type :=
| Return (a : A)
| Exit (message : string).

Arguments Return {A} a.
Arguments Exit {A} message.

Definition bind {A B : Type} (m : outcome A) (k : A -> outcome B) : outcome B :=
  match m with
  | Return a => k a
  | Exit msg => Exit msg
  end.

Notation "x <- m ;; k" := (bind m (fun x => k))
  (at level 61, m at next level, right associativity).

Definition chr (n : nat) : string := String (ascii_of_nat n) EmptyString.

(** The double quote and the line feed, which the messages of the source
    contain. *)
Definition dquote : string := chr 34.
Definition newline : string := chr 10.

Definition code (c : ascii) : N := N_of_ascii c.

Definition is_digit (c : ascii) : bool :=
  ((48 <=? code c) && (code c <=? 57))%N.

(** [Py_ISSPACE]: tab, line feed, vertical tab, form feed, carriage return,
    space. *)
Definition is_space (c : ascii) : bool :=
  (((9 <=? code c) && (code c <=? 13)) || (code c =? 32))%N.

(** What [float()] does to a [str] before it parses: code points from 127
    on that are white space (U+0085 and U+00A0 are the two below 256)
    become a space; the others below 256 are no decimal digits and become
    a question mark, which no number contains. *)
Definition to_ascii_space (c : ascii) : ascii :=
  if (code c <? 127)%N then c
  else if ((code c =? 133) || (code c =? 160))%N then " "%char
  else "?"%char.

(** Underscores are dropped, and are legal only between two digits
    ([_Py_string_to_number_with_underscores]). *)
Fixpoint drop_underscores (prev : ascii) (s : list ascii) : option (list ascii) :=
  match s with
  | [] => if Ascii.eqb prev "_" then None else Some []
  | c :: rest =>
      if Ascii.eqb c "_" then
        if is_digit prev then drop_underscores c rest else None
      else if Ascii.eqb prev "_" && negb (is_digit c) then None
      else option_map (cons c) (drop_underscores c rest)
  end.

Fixpoint lstrip (s : list ascii) : list ascii :=
  match s with
  | c :: rest => if is_space c then lstrip rest else s
  | [] => []
  end.

Definition strip (s : list ascii) : list ascii :=
  rev (lstrip (rev (lstrip s))).

(** The longest prefix of digits, and what follows it. *)
Fixpoint span_digits (s : list ascii) : list ascii * list ascii :=
  match s with
  | c :: rest =>
      if is_digit c then
        let (ds, tl) := span_digits rest in (c :: ds, tl)
      else ([], s)
  | [] => ([], [])
  end.

Definition digit_value (c : ascii) : Z := Z.of_N (code c) - 48.

Definition digits_value (ds : list ascii) : Z :=
  fold_left (fun acc c => 10 * acc + digit_value c) ds 0.

(** An optional sign: [true] for minus. *)
Definition take_sign (s : list ascii) : bool * list ascii :=
  match s with
  | c :: rest =>
      if Ascii.eqb c "-" then (true, rest)
      else if Ascii.eqb c "+" then (false, rest)
      else (false, s)
  | [] => (false, [])
  end.

(** A parsed float, before rounding to a double: not-a-number, an
    infinity, or the decimal [(-1)^neg * mant * 10^exp10]. *)
Inductive pyfloat : Type :=
| NaN
| Inf (neg : bool)
| Dec (neg : bool) (mant : Z) (exp10 : Z).

Definition lower (c : ascii) : ascii :=
  if ((65 <=? code c) && (code c <=? 90))%N
  then ascii_of_N (code c + 32) else c.

Definition matches_nocase (s : list ascii) (word : string) : bool :=
  if list_eq_dec ascii_dec (map lower s) (list_ascii_of_string word)
  then true else false.

(** [_Py_parse_inf_or_nan], required to consume the whole text. *)
Definition parse_inf_or_nan (s : list ascii) : option pyfloat :=
  let (neg, body) := take_sign s in
  if matches_nocase body "inf" || matches_nocase body "infinity" then Some (Inf neg)
  else if matches_nocase body "nan" then Some NaN
  else None.

(** [_Py_dg_strtod], required to consume the whole text: a sign, digits
    with at most one point and at least one digit, and an exponent, which
    needs a digit of its own. *)
Definition parse_decimal (s : list ascii) : option pyfloat :=
  let (neg, s1) := take_sign s in
  let (ip, s2) := span_digits s1 in
  let (fp, s3) :=
    match s2 with
    | c :: rest => if Ascii.eqb c "." then span_digits rest else ([], s2)
    | [] => ([], [])
    end in
  match (ip ++ fp)%list with
  | [] => None
  | _ :: _ =>
      let mant := digits_value (ip ++ fp)%list in
      let scale := - Z.of_nat (List.length fp) in
      match s3 with
      | [] => Some (Dec neg mant scale)
      | c :: rest =>
          if Ascii.eqb c "e" || Ascii.eqb c "E" then
            let (eneg, s4) := take_sign rest in
            let (ed, s5) := span_digits s4 in
            match ed, s5 with
            | _ :: _, [] =>
                let e := digits_value ed in
                Some (Dec neg mant ((if eneg then - e else e) + scale))
            | _, _ => None
            end
          else None
      end
  end.

(** [float(s)] for a string [s]; [None] is [ValueError].  (The limit of
    10^9 digits of the C parser is left out.) *)
Definition float (s : string) : option pyfloat :=
  match drop_underscores zero (map to_ascii_space (list_ascii_of_string s)) with
  | None => None
  | Some t =>
      let body := strip t in
      match parse_decimal body with
      | Some v => Some v
      | None => parse_inf_or_nan body
      end
  end.

(** [value < 0] on the double that [value] rounds to.  A decimal of
    magnitude up to and including 2^-1075, half the smallest subnormal,
    rounds to a zero (ties go to the even mantissa), and a zero of either
    sign is not below zero; not-a-number compares false. *)
Definition lt_zero (value : pyfloat) : bool :=
  match value with
  | NaN => false
  | Inf neg => neg
  | Dec neg mant exp10 =>
      neg && (if 0 <=? exp10 then 0 <? mant
              else 10 ^ (- exp10) <? mant * 2 ^ 1075)
  end.

End Py.

(** ** lib/log.py *)

Module Log.

(** Modelled from the spec: [lib/log.py] is missing.  Sections 6 and 7 of
    the specification call what [default_cov_cutoff] reports through
    [log.fatal] a fatal configuration error that is reported immediately
    and ends the process, so [fatal] never returns to its caller. *)
Definition fatal {A : Type} (msg : string) : Py.outcome A := Py.Exit msg.

End Log.

(** ** lib/assembler.py *)

Module Assembler.

Import Py.

(** [default_kmer(kmer, assembler)] *)
Definition default_kmer (kmer : Z) (assembler : string) : Z :=
  if String.eqb assembler "velvet" && (31 <? kmer) then 31 else kmer.

Definition cov_cutoff_err : string :=
  "Read coverage cutoff value. Must be a positive float value, or "
  ++ dquote ++ "auto" ++ dquote ++ ", or " ++ dquote ++ "off" ++ dquote.

(** [default_cov_cutoff(cov_cutoff)]: the membership test, then [float()]
    under [try], then the sign test; the argument itself is what is
    returned. *)
Definition default_cov_cutoff (cov_cutoff : string) : outcome string :=
  if existsb (String.eqb cov_cutoff) ["off"; "auto"] then Return cov_cutoff
  else
    let err := cov_cutoff_err in
    value <- match Py.float cov_cutoff with
             | Some value => Return value
             | None => Log.fatal err
             end ;;
    _ <- (if lt_zero value then Log.fatal err else Return tt) ;;
    Return cov_cutoff.

(** The text of [find_program]'s error after [textwrap.dedent] and
    [format]. *)
Definition find_program_err (program : string) : string :=
  newline ++ "We could not find the " ++ dquote ++ program ++ dquote
  ++ " program. You either need to" ++ newline
  ++ "install it or you need to adjust the PATH environment" ++ newline
  ++ "variable with the " ++ dquote ++ "--path" ++ dquote
  ++ " option so that aTRAM can" ++ newline
  ++ "find it.".

(** Truth value of what [shutil.which] returns: [None] and the empty
    string are false. *)
Definition truthy (path : option string) : bool :=
  match path with
  | None => false
  | Some p => negb (String.eqb p EmptyString)
  end.

Section Environment.

(** [shutil.which]: the path of an executable, or [None]. *)
Variable which : string -> option string.

(** [find_program(assembler_name, program, assembler_arg, option=True)] *)
Definition find_program (assembler_name program assembler_arg : string)
    (option : bool) : outcome unit :=
  if String.eqb assembler_arg assembler_name && option
     && negb (truthy (which program))
  then Exit (find_program_err program)
  else Return tt.

End Environment.

End Assembler.

(** ** lib/db.py: the store *)

Module Db.

(** A stored row, [(name, batch_id, sequence)]. *)
Record sequence_record : Type := {
  name : string;
  batch_id : string;
  sequence : string
}.

(** Modelled from the spec: [lib/db.py] is missing.  Section 4.1 of the
    specification gives the queries of the store that the shard planner
    and the shard builder use, and the tests mock the same three: the
    number of rows, the two names at a cut, the rows of a window. *)
Record store : Type := {
  get_sequence_count : Z;
  get_shard_cut_pair : Z -> string * string;
  get_sequences_in_shard : Z -> Z -> list sequence_record
}.

End Db.

(** ** atram_preprocessor.py *)

Module Preprocessor.

Import Py Db.

(** *** Shard planner *)

(** Modelled from the spec: [atram_preprocessor.py] is missing; section
    4.3 of the specification describes [assign_seqs_to_shards] and
    [test_assign_seqs_to_shards] pins its result.  The candidate for the
    [i]-th boundary is [i] shards of the base size,
    [floor(count / shard_count)], into the store, and the last shard takes
    the rows that remain.  Where section 4.3 and the test disagree the
    test decides, as section 8 asks: the candidates of 100 rows in 3
    shards are 33 and 66 (not 34 and 67, which handing the remainder to
    the first shards would give); the candidate 33, whose two names
    differ, is pushed forward to 34 (the comment of the test says so); the
    candidate 66, whose two names are equal, stays where it is, and is not
    shifted by what happened at 33. *)
Definition shard_boundary (db : store) (shard_size i : Z) : Z :=
  let candidate := i * shard_size in
  let (first, second) := get_shard_cut_pair db candidate in
  if String.eqb first second then candidate else candidate + 1.

Definition shard_offsets (db : store) (shard_count : Z) : list Z :=
  let shard_size := get_sequence_count db / shard_count in
  0 :: map (fun i => shard_boundary db shard_size (Z.of_nat i))
           (seq 1 (Z.to_nat shard_count - 1)).

(** The length of each shard: from its offset to the next one, and to the
    end of the store for the last. *)
Definition shard_windows (offsets : list Z) (total : Z) : list (Z * Z) :=
  let stops := (tl offsets ++ [total])%list in
  map (fun cut => (snd cut - fst cut, fst cut)) (combine offsets stops).

(** The list of [(limit, offset)] pairs, one per shard. *)
Definition assign_seqs_to_shards (db : store) (shard_count : Z) : list (Z * Z) :=
  shard_windows (shard_offsets db shard_count) (get_sequence_count db).

(** *** Shard builder *)

Definition fasta_header (row : sequence_record) : string :=
  let seq_end :=
    if String.eqb (batch_id row) EmptyString then EmptyString
    else "/" ++ batch_id row in
  ">" ++ name row ++ seq_end.

(** [fasta_file.write(text)] on the text written so far. *)
Definition write (file text : string) : string := file ++ text.

(** Modelled from the spec: [fill_blast_fasta] (section 4.4 step 2, and
    [test_fill_blast_fasta]): the rows of the window, in the order the
    store returns them, each written as a header line and a sequence
    line into a file opened afresh.  The result is the content of the
    file. *)
Definition fill_blast_fasta (db : store) (shard_params : Z * Z) : string :=
  let (limit, offset) := shard_params in
  fold_left
    (fun file row =>
       write (write file (fasta_header row ++ newline))
             (sequence row ++ newline))
    (get_sequences_in_shard db limit offset) EmptyString.

(** A FASTA entry as the specification words it. *)
Definition fasta_entry (row : sequence_record) : list string :=
  [ ">" ++ name row
    ++ (if String.eqb (batch_id row) EmptyString then EmptyString
        else "/" ++ batch_id row);
    sequence row ].

(** The lines of a text in which every line ends with a line feed. *)
Fixpoint lines_from (current : string) (text : string) : list string :=
  match text with
  | EmptyString =>
      match current with
      | EmptyString => []
      | _ => [current]
      end
  | String c rest =>
      if Ascii.eqb c (ascii_of_nat 10) then current :: lines_from EmptyString rest
      else lines_from (current ++ String c EmptyString) rest
  end.

Definition lines (text : string) : list string := lines_from EmptyString text.

Fixpoint has_newline (text : string) : bool :=
  match text with
  | EmptyString => false
  | String c rest => Ascii.eqb c (ascii_of_nat 10) || has_newline rest
  end.

(** The text whose lines are [ls], each ended by a line feed. *)
Definition unlines (ls : list string) : string :=
  fold_right (fun line text => line ++ newline ++ text) EmptyString ls.

Definition one_line_fields (row : sequence_record) : Prop :=
  has_newline (name row) = false /\ has_newline (batch_id row) = false
  /\ has_newline (sequence row) = false.

(** *** The preprocessing run *)

Record args : Type := {
  log_file : string;
  blast_db : string;
  sra_files : list string;
  shard_count : Z
}.

Definition connection : Type := string.

(** The calls [preprocess] makes to its collaborators, with their
    arguments, as the mocks of [test_preprocess] record them. *)
Inductive call : Type :=
| log_file_name (log_file blast_db : string)
| log_setup (log_file : string)
| db_connect (blast_db : string)
| db_create_metadata_table (db_conn : connection)
| db_create_sequences_table (db_conn : connection)
| load_seqs (db_conn : connection) (sra_files : list string)
| log_info (msg : string)
| db_create_sequences_index (db_conn : connection)
| assign_seqs_to_shards_call (db_conn : connection) (shard_count : Z)
| create_all_blast_shards (a : args) (shard_list : list (Z * Z)).

(** How the collaborators answer: [None] and [false] stand for a call that
    raises instead of returning. *)
Record world : Type := {
  file_name : string -> string -> option string;
  connect : string -> option connection;
  planned : connection -> Z -> option (list (Z * Z));
  completes : call -> bool
}.

(** A computation that appends to the history of calls and may stop
    early. *)
Definition run (A : Type) : Type := list call -> list call * option A.

Definition run_bind {A B : Type} (m : run A) (k : A -> run B) : run B :=
  fun history =>
    match m history with
    | (history', Some a) => k a history'
    | (history', None) => (history', None)
    end.

Definition invoke {A : Type} (c : call) (answer : option A) : run A :=
  fun history => ((history ++ [c])%list, answer).

Definition unit_call (w : world) (c : call) : run unit :=
  invoke c (if completes w c then Some tt else None).

Notation "x <~ m ;; k" := (run_bind m (fun x => k))
  (at level 61, m at next level, right associativity).

(** Modelled from the spec: [preprocess] (sections 4.1 and 5, and the
    history that [test_preprocess] expects): name and set up the log,
    connect, create the two tables, load, announce and create the index,
    plan the shards, build them. *)
Definition preprocess (w : world) (a : args) : run unit :=
  log_file <~ invoke (log_file_name (log_file a) (blast_db a))
                     (file_name w (log_file a) (blast_db a)) ;;
  _ <~ unit_call w (log_setup log_file) ;;
  db_conn <~ invoke (db_connect (blast_db a)) (connect w (blast_db a)) ;;
  _ <~ unit_call w (db_create_metadata_table db_conn) ;;
  _ <~ unit_call w (db_create_sequences_table db_conn) ;;
  _ <~ unit_call w (load_seqs db_conn (sra_files a)) ;;
  _ <~ unit_call w (log_info "Creating an index for the sequence table") ;;
  _ <~ unit_call w (db_create_sequences_index db_conn) ;;
  shard_list <~ invoke (assign_seqs_to_shards_call db_conn (shard_count a))
                       (planned w db_conn (shard_count a)) ;;
  unit_call w (create_all_blast_shards a shard_list).

Definition history_of (w : world) (a : args) : list call :=
  fst (preprocess w a []).

Definition is_load (c : call) : bool :=
  match c with load_seqs _ _ => true | _ => false end.

Definition is_index (c : call) : bool :=
  match c with db_create_sequences_index _ => true | _ => false end.

Definition is_shard_step (c : call) : bool :=
  match c with
  | assign_seqs_to_shards_call _ _ | create_all_blast_shards _ _ => true
  | _ => false
  end.

(** In [history], every call of the kind [second] has a call of the kind
    [first] before it and none after it. *)
Definition strictly_precedes (first second : call -> bool) (history : list call) : Prop :=
  forall before c after,
    history = (before ++ c :: after)%list ->
    second c = true ->
    (exists d, In d before /\ first d = true)
    /\ (forall d, In d after -> first d = false).

(** Decides [strictly_precedes]; [seen] tells whether a call of the kind
    [first] has been passed. *)
Fixpoint precedes_check (first second : call -> bool) (seen : bool)
    (history : list call) : bool :=
  match history with
  | [] => true
  | c :: rest =>
      (if second c then seen && forallb (fun d => negb (first d)) rest else true)
      && precedes_check first second (seen || first c) rest
  end.

End Preprocessor.

(** ** Properties and fixtures *)

Module Props.

Import Py Db Preprocessor.

(** A float that the source's test [value < 0] lets through: one that is
    not below zero.  Zeros of either sign are, and so is not-a-number. *)
Definition non_negative (value : pyfloat) : Prop := lt_zero value = false.

(** The strings the specification lets [cov_cutoff] be. *)
Definition accepted (cov_cutoff : string) : Prop :=
  cov_cutoff = "off" \/ cov_cutoff = "auto"
  \/ exists value, Py.float cov_cutoff = Some value /\ non_negative value.

(** [shutil.which] finds the program. *)
Definition discoverable (which : string -> option string) (program : string) : Prop :=
  Assembler.truthy (which program) = true.

(** The windows start at [start], each begins where the one before it
    ends, and the last one ends at [stop]. *)
Fixpoint tiles (start : Z) (windows : list (Z * Z)) (stop : Z) : Prop :=
  match windows with
  | [] => start = stop
  | (limit, offset) :: rest => offset = start /\ tiles (offset + limit) rest stop
  end.


Definition row (n b s : string) : sequence_record :=
  {| name := n; batch_id := b; sequence := s |}.

(** The store of [test_assign_seqs_to_shards]: 100 rows, the cut pair
    (seq1, seq2) at the first cut and (seq3, seq3) after it. *)
Definition hundred_rows : store := {|
  get_sequence_count := 100;
  get_shard_cut_pair := fun offset =>
    if offset =? 33 then ("seq1", "seq2") else ("seq3", "seq3");
  get_sequences_in_shard := fun _ _ => []
|}.

(** The rows of [test_fill_blast_fasta]. *)
Definition fasta_rows : list sequence_record :=
  [ row "seq1" "1" "AAAAAAAAAA"; row "seq1" "2" "CCCCCCCCCC";
    row "seq2" EmptyString "GGGGGGGGGG"; row "seq3" "1" "TTTTTTTTTT" ].

(** The text [test_fill_blast_fasta] expects in the file. *)
Definition fasta_text : string :=
  ">seq1/1" ++ newline ++ "AAAAAAAAAA" ++ newline
  ++ ">seq1/2" ++ newline ++ "CCCCCCCCCC" ++ newline
  ++ ">seq2" ++ newline ++ "GGGGGGGGGG" ++ newline
  ++ ">seq3/1" ++ newline ++ "TTTTTTTTTT" ++ newline.

(** The store of [test_fill_blast_fasta], which answers every window
    with the four rows. *)
Definition mocked_store : store := {|
  get_sequence_count := 4;
  get_shard_cut_pair := fun _ => (EmptyString, EmptyString);
  get_sequences_in_shard := fun _ _ => fasta_rows
|}.

(** An empty store that answers a cut pair out of range with two names
    that differ. *)
Definition empty_unequal : store := {|
  get_sequence_count := 0;
  get_shard_cut_pair := fun _ => ("a", "b");
  get_sequences_in_shard := fun _ _ => []
|}.

(** The mocks of [test_preprocess]: every call returns. *)
Definition mocked : world := {|
  file_name := fun _ _ => Some "log_file_name";
  connect := fun _ => Some "my_connection";
  planned := fun _ _ => Some [(34, 0); (32, 34); (34, 66)];
  completes := fun _ => true
|}.

Definition mocked_args : args := {|
  log_file := "log_file_arg";
  blast_db := "blast_db_arg";
  sra_files := ["sra_files_arg"];
  shard_count := 3
|}.

End Props.

(** ** lib/assembler.py: the registry of assemblers and the parser defaults *)

Module Registry.

(** The classes [lib/assembler.py] imports; their bodies live in
    [lib/assemblers/]. *)
Inductive assembler_class : Type :=
| AbyssAssembler
| TrinityAssembler
| VelvetAssembler
| SpadesAssembler
| NoneAssembler.

(** A [dict] with string keys, written as its items; a lookup takes the
    first item with the key. *)
Definition dict (V : Type) : Type := list (string * V).

Fixpoint dict_get {V : Type} (d : dict V) (key : string) : option V :=
  match d with
  | [] => None
  | (k, v) :: rest => if String.eqb k key then Some v else dict_get rest key
  end.

(** [ASSEMBLERS] *)
Definition ASSEMBLERS : dict assembler_class :=
  [ ("abyss", AbyssAssembler);
    ("trinity", TrinityAssembler);
    ("velvet", VelvetAssembler);
    ("spades", SpadesAssembler);
    ("none", NoneAssembler) ].

(** [str.lower] on a code point below 256: the letters A to Z and the
    capital letters from U+00C0 to U+00DE, the multiplication sign U+00D7
    apart, move up by 32. *)
Definition lower_char (c : ascii) : ascii :=
  let n := Py.code c in
  if (((65 <=? n) && (n <=? 90))
      || ((192 <=? n) && (n <=? 222) && negb (n =? 215)))%N
  then ascii_of_N (n + 32) else c.

Fixpoint str_lower (s : string) : string :=
  match s with
  | EmptyString => EmptyString
  | String c rest => String (lower_char c) (str_lower rest)
  end.

(** A value, or the [KeyError] that a subscript raises. *)
Inductive raised (A : Type) : Type :=
| Value (a : A)
| KeyError (key : string).

Arguments Value {A} a.
Arguments KeyError {A} key.

Section Classes.

(** The instances and the constructors of the five classes, and the
    connection handed to them. *)
Variable instance : Type.
Variable connection : Type.
Variable construct : assembler_class -> dict string -> connection -> instance.

(** [factory(args, cxn)] *)
Definition factory (args : dict string) (cxn : connection) : raised instance :=
  match dict_get args "assembler" with
  | None => KeyError "assembler"
  | Some chosen =>
      let name := str_lower chosen in
      match dict_get ASSEMBLERS name with
      | None => KeyError name
      | Some assembler => Value (construct assembler args cxn)
      end
  end.

End Classes.

(** A number as [command_line_args] computes with it: an [int], or a
    [float] with a whole value. *)
Inductive number : Type :=
| Int (n : Z)
| Float (whole : Z).

Definition value (x : number) : Z :=
  match x with
  | Int n => n
  | Float whole => whole
  end.

(** [max(a, b)] of two arguments: the second only when it is greater. *)
Definition py_max (a b : number) : number :=
  if value a <? value b then b else a.

(** The two numbers [command_line_args] derives from the bytes that
    [psutil] reports as available: the free gigabytes and the default of
    [--max-memory]. *)
Definition total_mem (available : Z) : Z := Z.shiftr available 30.

Definition max_mem (available : Z) : number :=
  py_max (Float 1) (Int (Z.shiftr (total_mem available) 1)).

End Registry.

(** ** Properties and fixtures, continued *)

Module MoreProps.

Import Py Db Preprocessor Props Registry.

(** White space as [float()] sees it. *)
Definition float_space (c : ascii) : bool := is_space (to_ascii_space c).

(** A character [float()] hands to the number parser as it is: below 127,
    no underscore, no white space. *)
Definition plain (c : ascii) : bool :=
  (code c <? 127)%N && negb (Ascii.eqb c "_") && negb (is_space c).

Definition text (l : list ascii) : string := string_of_list_ascii l.

(** The spellings of a word in any mix of letter cases. *)
Definition spells (body : list ascii) (word : string) : Prop :=
  matches_nocase body word = true.

(** A row list behind a store: the rows of a window are the [limit] rows
    from [offset] on. *)
Definition rows_store (rows : list sequence_record) : store := {|
  get_sequence_count := Z.of_nat (List.length rows);
  get_shard_cut_pair := fun _ => (EmptyString, EmptyString);
  get_sequences_in_shard := fun limit offset =>
    firstn (Z.to_nat limit) (skipn (Z.to_nat offset) rows)
|}.

(** The store answers a window with the [limit] rows from [offset] on of
    [rows], its rows in scan order. *)
Definition reads_rows (db : store) (rows : list sequence_record) : Prop :=
  get_sequence_count db = Z.of_nat (List.length rows)
  /\ forall limit offset,
      0 <= limit -> 0 <= offset ->
      get_sequences_in_shard db limit offset
      = firstn (Z.to_nat limit) (skipn (Z.to_nat offset) rows).

(** The files of a list of windows, one after the other. *)
Definition shard_files (db : store) (windows : list (Z * Z)) : string :=
  fold_right (fun window files => fill_blast_fasta db window ++ files)
             EmptyString windows.

Fixpoint has_slash (s : string) : bool :=
  match s with
  | EmptyString => false
  | String c rest => Ascii.eqb c "/" || has_slash rest
  end.

(** A row that can be read back from its two lines: no line feed in a
    field, no slash in the name. *)
Definition readable (r : sequence_record) : Prop :=
  one_line_fields r /\ has_slash (name r) = false.



End MoreProps.

Import Py Db Preprocessor Props.

(** ** lib/assembler.py: results *)

Section AssemblerResults.

Import Assembler.

Example default_kmer_velvet_64 : default_kmer 64 "velvet" = 31.
Proof. reflexivity. Qed.

Example default_kmer_velvet_31 : default_kmer 31 "velvet" = 31.
Proof. reflexivity. Qed.

Example default_kmer_abyss_64 : default_kmer 64 "abyss" = 64.
Proof. reflexivity. Qed.

(** C7: [default_kmer] returns 31 when the assembler is velvet and the
    k-mer exceeds 31, and returns the k-mer as it is in every other case:
    velvet with a k-mer of at most 31, and every other assembler. *)
Theorem default_kmer_clamps_velvet (kmer : Z) (assembler : string) :
  (assembler = "velvet" /\ 31 < kmer -> default_kmer kmer assembler = 31)
  /\ (~ (assembler = "velvet" /\ 31 < kmer) -> default_kmer kmer assembler = kmer)
  /\ (assembler = "velvet" -> kmer <= 31 -> default_kmer kmer assembler = kmer)
  /\ (assembler <> "velvet" -> default_kmer kmer assembler = kmer).
Proof.
  unfold default_kmer.
  destruct (String.eqb_spec assembler "velvet") as [Heq | Hne];
    destruct (Z.ltb_spec 31 kmer) as [Hlt | Hge]; cbn [andb];
    repeat split; intros; try reflexivity; try tauto; try lia.
Qed.

Lemma non_literal_branch (cov_cutoff : string) :
  cov_cutoff <> "off" -> cov_cutoff <> "auto" ->
  existsb (String.eqb cov_cutoff) ["off"; "auto"] = false.
Proof.
  intros Hoff Hauto. cbn [existsb].
  apply String.eqb_neq in Hoff. apply String.eqb_neq in Hauto.
  now rewrite Hoff, Hauto.
Qed.

(** What [default_cov_cutoff] does, case by case. *)
Lemma default_cov_cutoff_cases (cov_cutoff : string) :
  (accepted cov_cutoff /\ default_cov_cutoff cov_cutoff = Return cov_cutoff)
  \/ (~ accepted cov_cutoff /\ default_cov_cutoff cov_cutoff = Exit cov_cutoff_err).
Proof.
  unfold accepted, non_negative, default_cov_cutoff.
  destruct (String.eqb_spec cov_cutoff "off") as [-> | Hoff].
  { left. split; [now left | reflexivity]. }
  destruct (String.eqb_spec cov_cutoff "auto") as [-> | Hauto].
  { left. split; [now right; left | reflexivity]. }
  rewrite (non_literal_branch _ Hoff Hauto).
  destruct (Py.float cov_cutoff) as [value | ] eqn:Hfloat; cbn [bind].
  - destruct (lt_zero value) eqn:Hsign; cbn [bind Log.fatal].
    + right. split; [ | reflexivity].
      intros [H | [H | (v & Hv & Hnn)]]; try contradiction.
      injection Hv as <-. congruence.
    + left. split; [ | reflexivity].
      right; right. now exists value.
  - right. split; [ | reflexivity].
    intros [H | [H | (v & Hv & _)]]; try contradiction. discriminate.
Qed.


(** Strings at the edge of the accepted set: a negative zero, a negative
    number that rounds to zero, and not-a-number are returned; minus
    infinity and the smallest negative double are not. *)
Example default_cov_cutoff_edges :
  default_cov_cutoff "-0.0" = Return "-0.0"
  /\ default_cov_cutoff "-1e-400" = Return "-1e-400"
  /\ default_cov_cutoff "nan" = Return "nan"
  /\ default_cov_cutoff " 1_0.5e1 " = Return " 1_0.5e1 "
  /\ default_cov_cutoff "-inf" = Exit cov_cutoff_err
  /\ default_cov_cutoff "-5e-324" = Exit cov_cutoff_err
  /\ default_cov_cutoff "1e" = Exit cov_cutoff_err
  /\ default_cov_cutoff "OFF" = Exit cov_cutoff_err
  /\ default_cov_cutoff EmptyString = Exit cov_cutoff_err.
Proof. repeat split; vm_compute; reflexivity. Qed.

(** C10: on every string it accepts, [default_cov_cutoff] returns that
    very string, not the parsed number, so it is the identity on what it
    accepts and applying it again changes nothing. *)
Theorem default_cov_cutoff_identity (cov_cutoff result : string) :
  default_cov_cutoff cov_cutoff = Return result ->
  result = cov_cutoff /\ default_cov_cutoff result = Return result.
Proof.
  intros Hrun.
  destruct (default_cov_cutoff_cases cov_cutoff) as [[_ Hsame] | [_ Hexit]].
  - rewrite Hsame in Hrun. injection Hrun as <-. now split.
  - rewrite Hexit in Hrun. discriminate.
Qed.

Lemma default_cov_cutoff_identity_witness :
  default_cov_cutoff "0.50" = Return "0.50"
  /\ ("0.50" = "0.50" /\ default_cov_cutoff "0.50" = Return "0.50").
Proof.
  split; [reflexivity | ].
  apply (default_cov_cutoff_identity "0.50" "0.50"); reflexivity.
Defined.

End AssemblerResults.

Section ProgramCheck.

Import Assembler.

Variable which : string -> option string.

Lemma find_program_cases (assembler_name program assembler_arg : string)
    (option : bool) :
  (assembler_arg = assembler_name /\ option = true /\ ~ discoverable which program
   /\ find_program which assembler_name program assembler_arg option
      = Exit (find_program_err program))
  \/ (~ (assembler_arg = assembler_name /\ option = true
         /\ ~ discoverable which program)
      /\ find_program which assembler_name program assembler_arg option = Return tt).
Proof.
  unfold find_program, discoverable.
  destruct (String.eqb_spec assembler_arg assembler_name) as [Heq | Hne];
    destruct option; destruct (truthy (which program)); cbn [andb negb];
    try (left; repeat split; try assumption; try reflexivity; congruence);
    right; (split; [ | reflexivity]); intros (H1 & H2 & H3);
    try contradiction; try discriminate; now apply H3.
Qed.

(** C8: [find_program] leaves the process through [sys.exit] with its
    message if and only if the assembler selected is the one being
    checked, the option is set and [which] does not find the program; in
    every other case it returns.  The message quotes the program and
    points to the "--path" option. *)
Theorem find_program_exits_iff_missing
    (assembler_name program assembler_arg : string) (option : bool) :
  ((exists message,
       find_program which assembler_name program assembler_arg option = Exit message)
   <-> (assembler_arg = assembler_name /\ option = true
        /\ ~ discoverable which program))
  /\ (find_program which assembler_name program assembler_arg option = Return tt
      <-> ~ (assembler_arg = assembler_name /\ option = true
             /\ ~ discoverable which program))
  /\ (forall message,
        find_program which assembler_name program assembler_arg option = Exit message ->
        exists before middle,
          message = before ++ dquote ++ program ++ dquote ++ middle
                    ++ dquote ++ "--path" ++ dquote
                    ++ " option so that aTRAM can" ++ newline ++ "find it.").
Proof.
  destruct (find_program_cases assembler_name program assembler_arg option)
    as [(H1 & H2 & H3 & Hrun) | (Hno & Hrun)]; rewrite Hrun.
  - split; [ | split].
    + split; [now intros _ | intros _; eauto].
    + split; [discriminate | intros H; exfalso; now apply H].
    + intros message [= <-].
      exists (newline ++ "We could not find the "),
        (" program. You either need to" ++ newline
         ++ "install it or you need to adjust the PATH environment" ++ newline
         ++ "variable with the ").
      reflexivity.
  - split; [ | split].
    + split; [intros [message H]; discriminate | intros H; contradiction].
    + split; [now intros _ | reflexivity].
    + intros message H. discriminate.
Qed.

End ProgramCheck.

Example find_program_missing :
  Assembler.find_program (fun _ => None) "velvet" "velveth" "velvet" true
  = Exit (Assembler.find_program_err "velveth").
Proof. reflexivity. Qed.

Example find_program_found :
  Assembler.find_program (fun _ => Some "/usr/bin/velveth") "velvet" "velveth" "velvet" true
  = Return tt.
Proof. reflexivity. Qed.

Example find_program_other_assembler :
  Assembler.find_program (fun _ => None) "velvet" "velveth" "abyss" true = Return tt.
Proof. reflexivity. Qed.

Example find_program_option_off :
  Assembler.find_program (fun _ => None) "abyss" "mpirun" "abyss" false = Return tt.
Proof. reflexivity. Qed.

(** ** Shard planner: results *)

Section Windows.

Lemma shard_windows_last (offset total : Z) :
  shard_windows [offset] total = [(total - offset, offset)].
Proof. reflexivity. Qed.

Lemma shard_windows_step (offset next : Z) (rest : list Z) (total : Z) :
  shard_windows (offset :: next :: rest) total
  = (next - offset, offset) :: shard_windows (next :: rest) total.
Proof. reflexivity. Qed.



Lemma shard_windows_tile (rest : list Z) :
  forall offset total, tiles offset (shard_windows (offset :: rest) total) total.
Proof.
  induction rest as [ | next rest IH]; intros offset total.
  - rewrite shard_windows_last. cbn. split; [reflexivity | lia].
  - rewrite shard_windows_step. cbn [tiles]. split; [reflexivity | ].
    replace (offset + (next - offset)) with next by lia. apply IH.
Qed.


Lemma shard_windows_limits (offsets : list Z) (total : Z) :
  StronglySorted Z.le (offsets ++ [total]) ->
  Forall (fun window => 0 <= fst window) (shard_windows offsets total).
Proof.
  induction offsets as [ | offset [ | next rest] IH]; intros Hsorted.
  - constructor.
  - rewrite shard_windows_last. constructor; [ | constructor].
    cbn in *. inversion Hsorted as [ | ? ? _ Hall]; subst.
    inversion Hall; subst. lia.
  - rewrite shard_windows_step.
    inversion Hsorted as [ | ? ? Htail Hall]; subst.
    constructor; [ | now apply IH].
    inversion Hall; subst. cbn. lia.
Qed.

Lemma sorted_snoc (l : list Z) (last : Z) :
  StronglySorted Z.le l -> Forall (fun x => x <= last) l ->
  StronglySorted Z.le (l ++ [last]).
Proof.
  induction 1 as [ | x l Hsorted IH Hall]; intros Hle; cbn.
  - repeat constructor.
  - inversion Hle; subst. constructor; [now apply IH | ].
    apply Forall_app. split; [assumption | now repeat constructor].
Qed.

Lemma map_seq_sorted (f : nat -> Z) (len : nat) :
  forall start,
    (forall i j, (start <= i <= j)%nat -> f i <= f j) ->
    StronglySorted Z.le (map f (seq start len)).
Proof.
  induction len as [ | len IH]; intros start Hmono; cbn; constructor.
  - apply IH. intros i j Hij. apply Hmono. lia.
  - apply Forall_forall. intros y Hy.
    apply in_map_iff in Hy as (j & <- & Hj). apply in_seq in Hj.
    apply Hmono. lia.
Qed.

End Windows.

Section Planner.

Variable db : store.

Lemma shard_boundary_range (shard_size i : Z) :
  i * shard_size <= shard_boundary db shard_size i <= i * shard_size + 1.
Proof.
  unfold shard_boundary.
  destruct (get_shard_cut_pair db (i * shard_size)) as [first second].
  destruct (String.eqb first second); lia.
Qed.

Lemma shard_boundary_mono (shard_size i j : Z) :
  0 <= shard_size -> i <= j ->
  shard_boundary db shard_size i <= shard_boundary db shard_size j.
Proof.
  intros Hsize Hij.
  destruct (Z.eq_dec i j) as [-> | Hne]; [lia | ].
  destruct (Z.eq_dec shard_size 0) as [-> | Hpos].
  - unfold shard_boundary. rewrite !Z.mul_0_r. lia.
  - pose proof (shard_boundary_range shard_size i).
    pose proof (shard_boundary_range shard_size j). nia.
Qed.

(** What a boundary is, read off the names of its cut pair. *)
Lemma shard_boundary_cases (shard_size i : Z) :
  let names := get_shard_cut_pair db (i * shard_size) in
  (fst names = snd names /\ shard_boundary db shard_size i = i * shard_size)
  \/ (fst names <> snd names /\ shard_boundary db shard_size i = i * shard_size + 1).
Proof.
  unfold shard_boundary.
  destruct (get_shard_cut_pair db (i * shard_size)) as [first second]. cbn.
  destruct (String.eqb_spec first second); [left | right]; now split.
Qed.

Lemma shard_offsets_sorted (shard_count : Z) :
  1 <= shard_count -> 0 <= get_sequence_count db ->
  StronglySorted Z.le (shard_offsets db shard_count).
Proof.
  intros Hcount Htotal. unfold shard_offsets.
  assert (Hsize : 0 <= get_sequence_count db / shard_count)
    by (apply Z.div_pos; lia).
  constructor.
  - apply map_seq_sorted. intros i j Hij.
    apply shard_boundary_mono; [assumption | lia].
  - apply Forall_forall. intros y Hy.
    apply in_map_iff in Hy as (i & <- & Hi).
    pose proof (shard_boundary_range (get_sequence_count db / shard_count) (Z.of_nat i)).
    nia.
Qed.

Lemma shard_offsets_within (shard_count : Z) :
  1 <= shard_count -> 0 <= get_sequence_count db ->
  (1 <= get_sequence_count db
   \/ fst (get_shard_cut_pair db 0) = snd (get_shard_cut_pair db 0)) ->
  Forall (fun offset => offset <= get_sequence_count db) (shard_offsets db shard_count).
Proof.
  intros Hcount Htotal Hedge. unfold shard_offsets.
  set (size := get_sequence_count db / shard_count).
  assert (Hsize : 0 <= size) by (apply Z.div_pos; lia).
  assert (Hfloor : shard_count * size <= get_sequence_count db)
    by (apply Z.mul_div_le; lia).
  constructor; [assumption | ].
  apply Forall_forall. intros y Hy.
  apply in_map_iff in Hy as (i & <- & Hi). apply in_seq in Hi.
  destruct (Z.eq_dec size 0) as [Hzero | Hpos].
  - rewrite Hzero.
    destruct (shard_boundary_cases 0 (Z.of_nat i)) as [[_ Hb] | [Hnames Hb]];
      rewrite Hb; rewrite Z.mul_0_r in *; [lia | ].
    destruct Hedge as [Hone | Hsame]; [lia | contradiction].
  - pose proof (shard_boundary_range size (Z.of_nat i)). nia.
Qed.


End Planner.

Section PlannerResults.


(** C1: for a store of 100 rows whose cut pair is (seq1, seq2) at offset
    33 and (seq3, seq3) at offset 66, [assign_seqs_to_shards] with 3
    shards returns the windows (34, 0), (32, 34), (34, 66). *)
Theorem assign_seqs_to_shards_hundred_in_three (db : store) :
  get_sequence_count db = 100 ->
  get_shard_cut_pair db 33 = ("seq1", "seq2") ->
  get_shard_cut_pair db 66 = ("seq3", "seq3") ->
  assign_seqs_to_shards db 3 = [(34, 0); (32, 34); (34, 66)].
Proof.
  intros Hcount Hfirst Hsecond.
  unfold assign_seqs_to_shards, shard_offsets. rewrite Hcount.
  change (seq 1 (Z.to_nat 3 - 1)) with [1%nat; 2%nat]. cbn [map].
  unfold shard_boundary.
  change (Z.of_nat 1 * (100 / 3)) with 33.
  change (Z.of_nat 2 * (100 / 3)) with 66.
  rewrite Hfirst, Hsecond. reflexivity.
Qed.

Lemma assign_seqs_to_shards_hundred_in_three_witness :
  get_sequence_count hundred_rows = 100
  /\ get_shard_cut_pair hundred_rows 33 = ("seq1", "seq2")
  /\ get_shard_cut_pair hundred_rows 66 = ("seq3", "seq3")
  /\ assign_seqs_to_shards hundred_rows 3 = [(34, 0); (32, 34); (34, 66)].
Proof.
  split; [reflexivity | split; [reflexivity | split; [reflexivity | ]]].
  apply (assign_seqs_to_shards_hundred_in_three hundred_rows); reflexivity.
Defined.




End PlannerResults.

Section PartitionResults.




(** One shard covers the store. *)
Example one_shard (db : store) :
  assign_seqs_to_shards db 1 = [(get_sequence_count db, 0)].
Proof.
  unfold assign_seqs_to_shards, shard_offsets.
  change (seq 1 (Z.to_nat 1 - 1)) with (@nil nat). cbn [map].
  rewrite shard_windows_last. now rewrite Z.sub_0_r.
Qed.

(** The one case in which a limit is negative: no rows, and a store whose
    cut pair out of range is two names that differ. *)
Example empty_unequal_windows :
  assign_seqs_to_shards empty_unequal 2 = [(1, 0); (-1, 1)].
Proof. vm_compute. reflexivity. Qed.

End PartitionResults.

(** ** Shard builder: results *)

Section FastaResults.

Lemma append_assoc (a b c : string) : (a ++ b) ++ c = a ++ (b ++ c).
Proof. induction a as [ | x a IH]; cbn; [reflexivity | now rewrite IH]. Qed.

Lemma append_empty_r (a : string) : a ++ EmptyString = a.
Proof. induction a as [ | x a IH]; cbn; [reflexivity | now rewrite IH]. Qed.

Lemma has_newline_append (a b : string) :
  has_newline (a ++ b) = has_newline a || has_newline b.
Proof.
  induction a as [ | x a IH]; cbn; [reflexivity | ].
  now rewrite IH, orb_assoc.
Qed.

Lemma fasta_header_entry (r : sequence_record) :
  fasta_entry r = [fasta_header r; sequence r].
Proof. reflexivity. Qed.

(** Writing the rows one after the other appends their entries. *)
Lemma write_rows (rows : list sequence_record) :
  forall file,
    fold_left
      (fun file row =>
         write (write file (fasta_header row ++ newline))
               (sequence row ++ newline))
      rows file
    = file ++ unlines (flat_map fasta_entry rows).
Proof.
  induction rows as [ | r rows IH]; intros file; cbn [fold_left flat_map].
  - cbn. now rewrite append_empty_r.
  - rewrite IH. unfold write. rewrite fasta_header_entry.
    cbn [app unlines fold_right].
    fold (unlines (flat_map fasta_entry rows)).
    now rewrite !append_assoc.
Qed.

Lemma lines_from_line (line : string) :
  forall current rest,
    has_newline line = false ->
    lines_from current (line ++ newline ++ rest)
    = (current ++ line) :: lines_from EmptyString rest.
Proof.
  induction line as [ | x line IH]; intros current rest Hline.
  - cbn. now rewrite append_empty_r.
  - change (Ascii.eqb x (ascii_of_nat 10) || has_newline line = false) in Hline.
    apply orb_false_iff in Hline as [Hx Hrest].
    cbn [append lines_from]. rewrite Hx, IH by assumption.
    now rewrite append_assoc.
Qed.

Lemma lines_unlines (ls : list string) :
  Forall (fun line => has_newline line = false) ls ->
  lines (unlines ls) = ls.
Proof.
  unfold lines.
  induction 1 as [ | line ls Hline _ IH]; [reflexivity | ].
  cbn [unlines fold_right]. fold (unlines ls).
  rewrite lines_from_line by assumption. cbn [append]. now rewrite IH.
Qed.

Lemma fasta_entry_one_line (rows : list sequence_record) :
  Forall one_line_fields rows ->
  Forall (fun line => has_newline line = false) (flat_map fasta_entry rows).
Proof.
  induction 1 as [ | r rows (Hname & Hbatch & Hseq) _ IH]; [constructor | ].
  cbn [flat_map]. rewrite fasta_header_entry. cbn [app].
  constructor; [ | constructor; assumption].
  unfold fasta_header. rewrite !has_newline_append, Hname.
  destruct (String.eqb (batch_id r) EmptyString); [reflexivity | ].
  now rewrite has_newline_append, Hbatch.
Qed.

Lemma flat_map_entry_length (rows : list sequence_record) :
  List.length (flat_map fasta_entry rows) = (2 * List.length rows)%nat.
Proof. induction rows as [ | r rows IH]; cbn in *; lia. Qed.

(** C6: the file [fill_blast_fasta] writes is, for the records of the
    window in the order the store returns them, a header line -- a
    greater-than sign and the name, then a slash and the batch id only
    when the batch id is not empty -- followed by the sequence on the next
    line: two lines per record. *)
Theorem fill_blast_fasta_two_lines_per_record (db : store) (limit offset : Z) :
  let rows := get_sequences_in_shard db limit offset in
  Forall one_line_fields rows ->
  fill_blast_fasta db (limit, offset) = unlines (flat_map fasta_entry rows)
  /\ lines (fill_blast_fasta db (limit, offset)) = flat_map fasta_entry rows
  /\ List.length (lines (fill_blast_fasta db (limit, offset)))
     = (2 * List.length rows)%nat.
Proof.
  intros rows Hrows.
  assert (Htext : fill_blast_fasta db (limit, offset)
                  = unlines (flat_map fasta_entry rows)).
  { unfold fill_blast_fasta. now rewrite write_rows. }
  assert (Hlines : lines (fill_blast_fasta db (limit, offset))
                   = flat_map fasta_entry rows).
  { rewrite Htext. now apply lines_unlines, fasta_entry_one_line. }
  repeat split; try assumption.
  rewrite Hlines. apply flat_map_entry_length.
Qed.

Lemma fill_blast_fasta_two_lines_per_record_witness :
  Forall one_line_fields (get_sequences_in_shard mocked_store 100 200)
  /\ fill_blast_fasta mocked_store (100, 200)
     = unlines (flat_map fasta_entry (get_sequences_in_shard mocked_store 100 200))
  /\ lines (fill_blast_fasta mocked_store (100, 200))
     = flat_map fasta_entry (get_sequences_in_shard mocked_store 100 200)
  /\ List.length (lines (fill_blast_fasta mocked_store (100, 200)))
     = (2 * List.length (get_sequences_in_shard mocked_store 100 200))%nat.
Proof.
  assert (H : Forall one_line_fields (get_sequences_in_shard mocked_store 100 200))
    by (repeat constructor).
  split; [exact H | ].
  exact (fill_blast_fasta_two_lines_per_record mocked_store 100 200 H).
Defined.

(** The file of [test_fill_blast_fasta]. *)
Example fill_blast_fasta_test :
  fill_blast_fasta mocked_store (100, 200) = fasta_text
  /\ lines fasta_text
     = [">seq1/1"; "AAAAAAAAAA"; ">seq1/2"; "CCCCCCCCCC";
        ">seq2"; "GGGGGGGGGG"; ">seq3/1"; "TTTTTTTTTT"].
Proof. split; vm_compute; reflexivity. Qed.

End FastaResults.

(** ** The preprocessing run: results *)

Section RunResults.

Lemma precedes_check_sound (first second : call -> bool) (history : list call) :
  forall seen passed,
    (seen = true -> exists d, In d passed /\ first d = true) ->
    precedes_check first second seen history = true ->
    forall before c after,
      history = (before ++ c :: after)%list ->
      second c = true ->
      (exists d, In d (passed ++ before)%list /\ first d = true)
      /\ (forall d, In d after -> first d = false).
Proof.
  induction history as [ | x rest IH]; intros seen passed Hseen Hcheck before c after Hsplit Hc.
  - destruct before; discriminate.
  - cbn [precedes_check] in Hcheck. apply andb_true_iff in Hcheck as [Hhere Hrest].
    destruct before as [ | y before]; cbn in Hsplit; injection Hsplit as -> ->.
    + rewrite Hc in Hhere. apply andb_true_iff in Hhere as [Hs Hafter].
      rewrite app_nil_r. split; [now apply Hseen | ].
      intros d Hd. rewrite forallb_forall in Hafter.
      apply Hafter in Hd. now apply negb_true_iff in Hd.
    + destruct (IH (seen || first y) (passed ++ [y])%list) with
        (before := before) (c := c) (after := after) as [Hex Hnone];
        try assumption; try reflexivity.
      * intros Hor. apply orb_true_iff in Hor as [Hs | Hy].
        -- destruct (Hseen Hs) as (d & Hd & Hfirst).
           exists d. split; [apply in_or_app; now left | assumption].
        -- exists y. split; [apply in_or_app; right; now left | assumption].
      * split; [ | assumption].
        now rewrite <- app_assoc in Hex.
Qed.

Lemma precedes_check_correct (first second : call -> bool) (history : list call) :
  precedes_check first second false history = true ->
  strictly_precedes first second history.
Proof.
  intros Hcheck before c after Hsplit Hc.
  apply (precedes_check_sound first second history false [] ltac:(discriminate) Hcheck
           before c after Hsplit Hc).
Qed.

(** Splits a run on the answer to the next call it makes. *)
Ltac next_call :=
  match goal with
  | |- context [completes ?w ?c] => destruct (completes w c) eqn:?
  | |- context [file_name ?w ?x ?y] => destruct (file_name w x y) eqn:?
  | |- context [connect ?w ?x] => destruct (connect w x) eqn:?
  | |- context [planned ?w ?x ?y] => destruct (planned w x y) eqn:?
  end; cbn.

(** C9: in every run of [preprocess], whichever calls raise, the index of
    the sequence table is created only after [load_seqs] was called and
    returned, with no load after it, and the shards are planned and built
    only after the index was created. *)
Theorem preprocess_indexes_after_loading (w : world) (a : args) :
  let history := history_of w a in
  strictly_precedes is_load is_index history
  /\ strictly_precedes is_index is_shard_step history
  /\ (forall db_conn, In (db_create_sequences_index db_conn) history ->
      completes w (load_seqs db_conn (sra_files a)) = true)
  /\ (forall db_conn shard_list,
        In (create_all_blast_shards a shard_list) history ->
        connect w (blast_db a) = Some db_conn ->
        completes w (db_create_sequences_index db_conn) = true
        /\ planned w db_conn (shard_count a) = Some shard_list).
Proof.
  unfold history_of, preprocess, run_bind, unit_call, invoke. cbn.
  repeat next_call;
    (split; [now apply precedes_check_correct | ]);
    (split; [now apply precedes_check_correct | ]);
    (split; [intros db_conn Hin | intros db_conn shard_list Hin Hconn]);
    cbn in Hin;
    repeat match goal with
      | H : _ \/ _ |- _ => destruct H as [H | H]
      | H : False |- _ => contradiction
      | H : _ = _ |- _ => discriminate H
      | H : db_create_sequences_index _ = db_create_sequences_index _ |- _ =>
          injection H as ->
      | H : create_all_blast_shards _ _ = create_all_blast_shards _ _ |- _ =>
          injection H as ->
      | H : Some _ = Some _ |- _ => injection H as ->
      end;
    try assumption; try (split; assumption).
Qed.

(** The history [test_preprocess] expects, when every call returns. *)
Example preprocess_test_history :
  preprocess mocked mocked_args []
  = ([ log_file_name "log_file_arg" "blast_db_arg";
       log_setup "log_file_name";
       db_connect "blast_db_arg";
       db_create_metadata_table "my_connection";
       db_create_sequences_table "my_connection";
       load_seqs "my_connection" ["sra_files_arg"];
       log_info "Creating an index for the sequence table";
       db_create_sequences_index "my_connection";
       assign_seqs_to_shards_call "my_connection" 3;
       create_all_blast_shards mocked_args [(34, 0); (32, 34); (34, 66)] ],
     Some tt).
Proof. reflexivity. Qed.

(** A load that raises ends the run: no index, no shards. *)
Example preprocess_load_raises :
  history_of
    {| file_name := fun _ _ => Some "log";
       connect := fun _ => Some "cxn";
       planned := fun _ _ => Some [];
       completes := fun c => negb (is_load c) |}
    mocked_args
  = [ log_file_name "log_file_arg" "blast_db_arg";
      log_setup "log";
      db_connect "blast_db_arg";
      db_create_metadata_table "cxn";
      db_create_sequences_table "cxn";
      load_seqs "cxn" ["sra_files_arg"] ].
Proof. reflexivity. Qed.

End RunResults.

(** ** lib/assembler.py: further results *)

Section KmerResults.

Import Assembler.

(** X1: [default_kmer] never raises the k-mer, gives the smaller of the k-mer
    and 31 for velvet, changes nothing when applied twice, and keeps the
    order of two k-mers. *)
Theorem default_kmer_caps (kmer other : Z) (assembler : string) :
  default_kmer kmer assembler <= kmer
  /\ default_kmer kmer "velvet" = Z.min kmer 31
  /\ default_kmer (default_kmer kmer assembler) assembler
     = default_kmer kmer assembler
  /\ (kmer <= other ->
      default_kmer kmer assembler <= default_kmer other assembler).
Proof.
  unfold default_kmer. cbn [String.eqb Ascii.eqb Bool.eqb andb].
  destruct (String.eqb assembler "velvet"); cbn [andb];
    destruct (Z.ltb_spec 31 kmer); destruct (Z.ltb_spec 31 other);
    repeat split; intros; try lia;
    try (destruct (Z.ltb_spec 31 31); lia);
    try (destruct (Z.ltb_spec 31 kmer); lia).
Qed.

End KmerResults.

Section RegistryResults.

Import Assembler Registry MoreProps.

Variable instance : Type.
Variable cxn_type : Type.
Variable construct : assembler_class -> dict string -> cxn_type -> instance.

Lemma lower_char_idempotent (c : ascii) : lower_char (lower_char c) = lower_char c.
Proof. destruct c as [[] [] [] [] [] [] [] []]; reflexivity. Qed.

Lemma str_lower_idempotent (s : string) : str_lower (str_lower s) = str_lower s.
Proof.
  induction s as [ | c s IH]; cbn; [reflexivity | ].
  now rewrite lower_char_idempotent, IH.
Qed.

Lemma registry_keys (name : string) (cls : assembler_class) :
  dict_get ASSEMBLERS name = Some cls ->
  In (name, cls) ASSEMBLERS /\ str_lower name = name.
Proof.
  unfold ASSEMBLERS. cbn [dict_get].
  repeat match goal with
    | |- context [String.eqb ?k name] =>
        destruct (String.eqb_spec k name) as [<- | ?];
        [intros [= <-]; split; [cbn; tauto | reflexivity] | ]
    end.
  discriminate.
Qed.

(** X2: [factory] returns an instance exactly when the option is present and
    its lower-cased value is one of the five names of the registry; the
    instance is built by the class registered under that name, from the
    arguments and the connection as they were passed.  Without the option
    it raises [KeyError] for the option, with any other value [KeyError]
    for the lower-cased value. *)
Theorem factory_builds_registered (args : dict string) (cxn : cxn_type) :
  ((exists made, factory instance cxn_type construct args cxn = Value made)
   <-> exists chosen,
        dict_get args "assembler" = Some chosen
        /\ In (str_lower chosen) ["abyss"; "trinity"; "velvet"; "spades"; "none"])
  /\ (forall chosen cls,
        dict_get args "assembler" = Some chosen ->
        In (str_lower chosen, cls) ASSEMBLERS ->
        factory instance cxn_type construct args cxn = Value (construct cls args cxn))
  /\ (dict_get args "assembler" = None ->
      factory instance cxn_type construct args cxn = KeyError "assembler")
  /\ (forall chosen,
        dict_get args "assembler" = Some chosen ->
        ~ In (str_lower chosen) ["abyss"; "trinity"; "velvet"; "spades"; "none"] ->
        factory instance cxn_type construct args cxn = KeyError (str_lower chosen)).
Proof.
  unfold factory.
  destruct (dict_get args "assembler") as [chosen | ] eqn:Hopt.
  - assert (Hkeys : forall cls, In (str_lower chosen, cls) ASSEMBLERS ->
                     dict_get ASSEMBLERS (str_lower chosen) = Some cls).
    { intros cls Hin. cbn in Hin.
      repeat destruct Hin as [[= <- <-] | Hin]; try reflexivity. contradiction. }
    cbn zeta.
    destruct (dict_get ASSEMBLERS (str_lower chosen)) as [cls | ] eqn:Hget.
    + destruct (registry_keys _ _ Hget) as [Hin _].
      assert (Hname : In (str_lower chosen)
                        ["abyss"; "trinity"; "velvet"; "spades"; "none"]).
      { cbn in Hin. cbn.
        repeat destruct Hin as [[= <- _] | Hin]; try tauto. }
      repeat split.
      * intros _. exists chosen. now split.
      * intros _. eauto.
      * intros chosen' cls' [= <-] Hin'. apply Hkeys in Hin'. congruence.
      * discriminate.
      * intros chosen' [= <-] Hno. contradiction.
    + assert (Hno : ~ In (str_lower chosen)
                        ["abyss"; "trinity"; "velvet"; "spades"; "none"]).
      { intros Hin. cbn in Hin.
        repeat destruct Hin as [Heq | Hin]; try contradiction;
          rewrite <- Heq in Hget; discriminate. }
      repeat split.
      * intros [made H]. discriminate.
      * intros (chosen' & [= <-] & Hin). contradiction.
      * intros chosen' cls' [= <-] Hin'. apply Hkeys in Hin'. congruence.
      * discriminate.
      * intros chosen' [= <-] _. reflexivity.
  - repeat split; try discriminate; try reflexivity.
    + intros [made H]. discriminate.
    + intros (chosen & H & _). discriminate.
Qed.

(** X3: lower-casing the option beforehand changes nothing in what [factory]
    decides: either the same class builds the instance for the option as
    given and for the option in lower case, or both calls raise
    [KeyError] for the lower-cased value. *)
Theorem factory_ignores_case (rest : dict string) (chosen : string) (cxn : cxn_type) :
  let given := ("assembler", chosen) :: rest in
  let lowered := ("assembler", str_lower chosen) :: rest in
  (exists cls,
      In (str_lower chosen, cls) ASSEMBLERS
      /\ factory instance cxn_type construct given cxn
         = Value (construct cls given cxn)
      /\ factory instance cxn_type construct lowered cxn
         = Value (construct cls lowered cxn))
  \/ (factory instance cxn_type construct given cxn = KeyError (str_lower chosen)
      /\ factory instance cxn_type construct lowered cxn
         = KeyError (str_lower chosen)).
Proof.
  cbv zeta. unfold factory. cbn [dict_get String.eqb Ascii.eqb Bool.eqb].
  rewrite str_lower_idempotent.
  destruct (dict_get ASSEMBLERS (str_lower chosen)) as [cls | ] eqn:Hget.
  - left. exists cls. destruct (registry_keys _ _ Hget) as [Hin _].
    now repeat split.
  - right. now split.
Qed.

End RegistryResults.

Section CaseResults.

Import Assembler Registry MoreProps.

Variable instance : Type.
Variable cxn_type : Type.
Variable construct : assembler_class -> dict string -> cxn_type -> instance.
Variable which : string -> option string.

(** X4: an option that names a registered assembler in another letter case
    than the registry's: [factory] builds that assembler, yet
    [default_kmer] and [find_program], which compare the option as it was
    given, treat it as some other assembler: the k-mer is returned as it
    is, above 31 too, and no program is looked for. *)
Theorem case_is_folded_by_factory_only
    (args : dict string) (cxn : cxn_type) (chosen key : string)
    (cls : assembler_class) (kmer : Z) (program : string) (option : bool) :
  dict_get args "assembler" = Some chosen ->
  dict_get ASSEMBLERS key = Some cls ->
  str_lower chosen = key ->
  chosen <> key ->
  factory instance cxn_type construct args cxn = Value (construct cls args cxn)
  /\ default_kmer kmer chosen = kmer
  /\ find_program which key program chosen option = Return tt.
Proof.
  intros Hopt Hreg Hlower Hcase.
  destruct (registry_keys _ _ Hreg) as [_ Hfixed].
  repeat split.
  - unfold factory. now rewrite Hopt, Hlower, Hreg.
  - unfold default_kmer.
    destruct (String.eqb_spec chosen "velvet") as [Hvelvet | _]; [ | reflexivity].
    exfalso. apply Hcase. rewrite <- Hlower, Hvelvet. reflexivity.
  - unfold find_program.
    destruct (String.eqb_spec chosen key) as [Heq | _]; [contradiction | reflexivity].
Qed.

End CaseResults.

Lemma case_is_folded_by_factory_only_witness :
  Registry.dict_get [("assembler", "Velvet")] "assembler" = Some "Velvet"
  /\ Registry.dict_get Registry.ASSEMBLERS "velvet" = Some Registry.VelvetAssembler
  /\ Registry.str_lower "Velvet" = "velvet"
  /\ "Velvet" <> "velvet"
  /\ (Registry.factory _ unit (fun cls _ _ => cls) [("assembler", "Velvet")] tt
      = Registry.Value Registry.VelvetAssembler
      /\ Assembler.default_kmer 64 "Velvet" = 64
      /\ Assembler.find_program (fun _ => None) "velvet" "velveth" "Velvet" true
         = Return tt).
Proof.
  split; [reflexivity | split; [reflexivity | split; [reflexivity | ]]].
  split; [discriminate | ].
  apply (case_is_folded_by_factory_only _ unit (fun cls _ _ => cls) (fun _ => None)
           [("assembler", "Velvet")] tt "Velvet" "velvet" Registry.VelvetAssembler
           64 "velveth" true); try reflexivity.
  discriminate.
Defined.

Section MemoryResults.

Import Registry.

Lemma half_of_total (available : Z) :
  Z.shiftr (total_mem available) 1 = available / 2 ^ 31.
Proof.
  unfold total_mem. rewrite !Z.shiftr_div_pow2 by lia.
  rewrite Z.div_div by lia. reflexivity.
Qed.

(** X5: the default of [--max-memory] is never below 1: it is the number of
    whole 2-gigabyte blocks in the available bytes, an [int], when there
    are at least two such blocks, and then at most half the free
    gigabytes; it is the float 1.0 otherwise, even when less than one
    gigabyte is free. *)
Theorem max_mem_default (available : Z) :
  1 <= value (max_mem available)
  /\ value (max_mem available) = Z.max 1 (available / 2 ^ 31)
  /\ (2 ^ 32 <= available ->
      max_mem available = Int (available / 2 ^ 31)
      /\ 2 * value (max_mem available) <= total_mem available)
  /\ (available < 2 ^ 32 -> max_mem available = Float 1)
  /\ (0 <= available < 2 ^ 30 ->
      total_mem available = 0 /\ max_mem available = Float 1).
Proof.
  unfold max_mem, py_max. rewrite half_of_total. cbn [value].
  assert (Htotal : total_mem available = available / 2 ^ 30)
    by (unfold total_mem; now rewrite Z.shiftr_div_pow2 by lia).
  assert (Hhalf : available / 2 ^ 31 = total_mem available / 2)
    by (rewrite Htotal, Z.div_div by lia; reflexivity).
  assert (Hblocks : 2 ^ 32 <= available <-> 2 <= available / 2 ^ 31).
  { split; intros H.
    - apply Z.div_le_lower_bound; lia.
    - pose proof (Z.mul_div_le available (2 ^ 31)). lia. }
  assert (Hnone : 0 <= available < 2 ^ 30 -> total_mem available = 0).
  { intros H. rewrite Htotal. apply Z.div_small. lia. }
  destruct (Z.ltb_spec 1 (available / 2 ^ 31)) as [Hbig | Hsmall]; cbn [value].
  - split; [lia | split; [lia | split; [ | split]]].
    + intros _. split; [reflexivity | ].
      cbn [value]. rewrite Hhalf. apply Z.mul_div_le. lia.
    + intros Hlt. exfalso. lia.
    + intros Hlt. exfalso. lia.
  - split; [lia | split; [lia | split; [ | split]]].
    + intros Hge. exfalso. lia.
    + reflexivity.
    + intros Hlt. split; [now apply Hnone | reflexivity].
Qed.

Example max_mem_sixteen_gigabytes :
  max_mem (16 * 2 ^ 30) = Int 8 /\ total_mem (16 * 2 ^ 30) = 16.
Proof. split; reflexivity. Qed.

Example max_mem_half_a_gigabyte :
  max_mem (2 ^ 29) = Float 1 /\ total_mem (2 ^ 29) = 0.
Proof. split; reflexivity. Qed.

End MemoryResults.

(** ** [default_cov_cutoff] on numerals, white space, infinities *)

Section NumeralResults.

Import Assembler MoreProps.

Ltac every_char c := destruct c as [[] [] [] [] [] [] [] []].

Lemma accepted_returns (cov_cutoff : string) :
  accepted cov_cutoff -> default_cov_cutoff cov_cutoff = Return cov_cutoff.
Proof.
  intros Hacc.
  destruct (default_cov_cutoff_cases cov_cutoff) as [[_ H] | [Hno _]];
    [exact H | contradiction].
Qed.

Lemma rejected_exits (cov_cutoff : string) :
  ~ accepted cov_cutoff -> default_cov_cutoff cov_cutoff = Exit cov_cutoff_err.
Proof.
  intros Hrej.
  destruct (default_cov_cutoff_cases cov_cutoff) as [[Hacc _] | [_ H]];
    [contradiction | exact H].
Qed.

Lemma plain_spec (c : ascii) :
  plain c = true ->
  to_ascii_space c = c /\ Ascii.eqb c "_" = false /\ is_space c = false.
Proof.
  unfold plain, to_ascii_space. intros H.
  apply andb_true_iff in H as [H Hspace]. apply andb_true_iff in H as [Hcode Hunder].
  rewrite Hcode. apply negb_true_iff in Hunder. apply negb_true_iff in Hspace.
  now repeat split.
Qed.

Lemma drop_underscores_plain (l : list ascii) :
  forall prev,
    Ascii.eqb prev "_" = false ->
    Forall (fun c => plain c = true) l ->
    drop_underscores prev l = Some l.
Proof.
  induction l as [ | c l IH]; intros prev Hprev Hall; cbn [drop_underscores].
  - now rewrite Hprev.
  - inversion Hall as [ | ? ? Hc Hrest]; subst.
    destruct (plain_spec c Hc) as (_ & Hunder & _).
    rewrite Hunder, Hprev. cbn [andb].
    now rewrite (IH c Hunder Hrest).
Qed.

Lemma lstrip_plain (l : list ascii) :
  Forall (fun c => plain c = true) l -> lstrip l = l.
Proof.
  destruct 1 as [ | c l Hc _]; [reflexivity | ].
  cbn. destruct (plain_spec c Hc) as (_ & _ & Hspace). now rewrite Hspace.
Qed.

Lemma strip_plain (l : list ascii) :
  Forall (fun c => plain c = true) l -> strip l = l.
Proof.
  intros Hall. unfold strip. rewrite (lstrip_plain l Hall).
  rewrite lstrip_plain by now apply Forall_rev.
  apply rev_involutive.
Qed.

Lemma to_ascii_space_plain (l : list ascii) :
  Forall (fun c => plain c = true) l -> map to_ascii_space l = l.
Proof.
  induction 1 as [ | c l Hc _ IH]; cbn; [reflexivity | ].
  destruct (plain_spec c Hc) as (Hsame & _). now rewrite Hsame, IH.
Qed.

(** On plain characters [float()] is the number parser. *)
Lemma float_plain (l : list ascii) :
  Forall (fun c => plain c = true) l ->
  Py.float (text l)
  = match parse_decimal l with
    | Some v => Some v
    | None => parse_inf_or_nan l
    end.
Proof.
  intros Hall. unfold Py.float, text.
  rewrite list_ascii_of_string_of_list_ascii, (to_ascii_space_plain l Hall).
  rewrite (drop_underscores_plain l zero eq_refl Hall).
  now rewrite (strip_plain l Hall).
Qed.

Lemma digit_facts (c : ascii) :
  is_digit c = true ->
  plain c = true /\ Ascii.eqb c "-" = false /\ Ascii.eqb c "+" = false
  /\ Ascii.eqb c "." = false /\ 0 <= digit_value c <= 9
  /\ (digit_value c = 0 -> c = "0"%char).
Proof.
  every_char c; vm_compute; intros H; try discriminate H;
    repeat split; intros; congruence.
Qed.

Lemma digits_plain (ds : list ascii) :
  Forall (fun c => is_digit c = true) ds -> Forall (fun c => plain c = true) ds.
Proof.
  intros H. eapply Forall_impl; [ | exact H]. intros c Hc. now apply digit_facts.
Qed.

Lemma span_digits_app (ds rest : list ascii) :
  Forall (fun c => is_digit c = true) ds ->
  match rest with [] => True | c :: _ => is_digit c = false end ->
  span_digits (ds ++ rest) = (ds, rest).
Proof.
  intros Hds Hrest. induction Hds as [ | c ds Hc _ IH]; cbn.
  - destruct rest as [ | c rest]; [reflexivity | ]. cbn. now rewrite Hrest.
  - now rewrite Hc, IH.
Qed.

Lemma span_digits_all (ds : list ascii) :
  Forall (fun c => is_digit c = true) ds -> span_digits ds = (ds, []).
Proof.
  intros Hds. rewrite <- (app_nil_r ds) at 1. now apply span_digits_app.
Qed.

Lemma digits_value_from (ds : list ascii) :
  Forall (fun c => is_digit c = true) ds ->
  forall acc,
    0 <= acc ->
    acc <= fold_left (fun acc c => 10 * acc + digit_value c) ds acc
    /\ (Forall (fun c => c = "0"%char) ds -> acc = 0 ->
        fold_left (fun acc c => 10 * acc + digit_value c) ds acc = 0)
    /\ (Exists (fun c => c <> "0"%char) ds ->
        0 < fold_left (fun acc c => 10 * acc + digit_value c) ds acc).
Proof.
  induction 1 as [ | c ds Hc _ IH]; intros acc Hacc; cbn [fold_left].
  - repeat split; [lia | intros _ H; exact H | intros H; inversion H].
  - destruct (digit_facts c Hc) as (_ & _ & _ & _ & Hrange & Hzero).
    destruct (IH (10 * acc + digit_value c)) as (Hge & Hall & Hex); [lia | ].
    repeat split.
    + lia.
    + intros Hzeros ->. inversion Hzeros; subst. apply Hall; [assumption | reflexivity].
    + intros Hsome. inversion Hsome as [? ? Hnz | ? ? Hlater]; subst.
      * assert (digit_value c <> 0) by (intros H; now apply Hnz, Hzero). lia.
      * now apply Hex.
Qed.

Lemma parse_unsigned (ip fp : list ascii) :
  Forall (fun c => is_digit c = true) ip ->
  Forall (fun c => is_digit c = true) fp ->
  (ip ++ fp)%list <> [] ->
  parse_decimal (ip ++ "."%char :: fp)
  = Some (Dec false (digits_value (ip ++ fp)) (- Z.of_nat (List.length fp))).
Proof.
  intros Hip Hfp Hsome. unfold parse_decimal.
  assert (Hsign : take_sign (ip ++ "."%char :: fp) = (false, (ip ++ "."%char :: fp)%list)).
  { destruct Hip as [ | c ip Hc _]; [reflexivity | ].
    destruct (digit_facts c Hc) as (_ & Hm & Hp & _).
    cbn. now rewrite Hm, Hp. }
  rewrite Hsign, (span_digits_app ip ("."%char :: fp) Hip eq_refl).
  cbn [Ascii.eqb Bool.eqb]. rewrite (span_digits_all fp Hfp).
  destruct (ip ++ fp)%list eqn:Hcat; [contradiction | reflexivity].
Qed.

Lemma parse_integer (ds : list ascii) :
  Forall (fun c => is_digit c = true) ds ->
  ds <> [] ->
  parse_decimal ds = Some (Dec false (digits_value ds) 0)
  /\ parse_decimal ("-"%char :: ds) = Some (Dec true (digits_value ds) 0).
Proof.
  intros Hds Hsome. unfold parse_decimal.
  assert (Hsign : take_sign ds = (false, ds)).
  { destruct Hds as [ | c ds Hc _]; [reflexivity | ].
    destruct (digit_facts c Hc) as (_ & Hm & Hp & _).
    cbn. now rewrite Hm, Hp. }
  rewrite Hsign. cbn [take_sign Ascii.eqb Bool.eqb].
  rewrite (span_digits_all ds Hds), app_nil_r.
  destruct ds; [contradiction | split; reflexivity].
Qed.

(** X6: every unsigned decimal numeral -- digits, or digits around a point
    with a digit on at least one side -- passes [default_cov_cutoff] and
    comes back as it was written. *)
Theorem unsigned_numerals_pass (ip fp : list ascii) :
  Forall (fun c => is_digit c = true) ip ->
  Forall (fun c => is_digit c = true) fp ->
  (ip ++ fp)%list <> [] ->
  default_cov_cutoff (text (ip ++ "."%char :: fp)) = Return (text (ip ++ "."%char :: fp))
  /\ (ip <> [] -> default_cov_cutoff (text ip) = Return (text ip)).
Proof.
  intros Hip Hfp Hsome. split.
  - apply accepted_returns. right; right.
    exists (Dec false (digits_value (ip ++ fp)) (- Z.of_nat (List.length fp))).
    split; [ | reflexivity].
    rewrite float_plain.
    + now rewrite (parse_unsigned ip fp Hip Hfp Hsome).
    + apply Forall_app. split; [now apply digits_plain | ].
      constructor; [reflexivity | now apply digits_plain].
  - intros Hint. apply accepted_returns. right; right.
    exists (Dec false (digits_value ip) 0).
    split; [ | reflexivity].
    rewrite float_plain by now apply digits_plain.
    destruct (parse_integer ip Hip Hint) as [Hparse _]. now rewrite Hparse.
Qed.

Lemma unsigned_numerals_pass_witness :
  Forall (fun c => is_digit c = true) (list_ascii_of_string "12")
  /\ Forall (fun c => is_digit c = true) (list_ascii_of_string "50")
  /\ (list_ascii_of_string "12" ++ list_ascii_of_string "50")%list <> []
  /\ (default_cov_cutoff "12.50" = Return "12.50"
      /\ (list_ascii_of_string "12" <> [] -> default_cov_cutoff "12" = Return "12")).
Proof.
  assert (H12 : Forall (fun c => is_digit c = true) (list_ascii_of_string "12"))
    by (repeat constructor).
  assert (H50 : Forall (fun c => is_digit c = true) (list_ascii_of_string "50"))
    by (repeat constructor).
  assert (Hne : (list_ascii_of_string "12" ++ list_ascii_of_string "50")%list <> [])
    by discriminate.
  split; [exact H12 | split; [exact H50 | split; [exact Hne | ]]].
  exact (unsigned_numerals_pass (list_ascii_of_string "12") (list_ascii_of_string "50")
           H12 H50 Hne).
Defined.

(** X7: a minus sign before digits: the string is turned down as soon as one
    digit is not a zero, and passes when all digits are zeros. *)
Theorem negative_integers_fail (ds : list ascii) :
  Forall (fun c => is_digit c = true) ds ->
  ds <> [] ->
  (Exists (fun c => c <> "0"%char) ds ->
   default_cov_cutoff (text ("-"%char :: ds)) = Exit cov_cutoff_err)
  /\ (Forall (fun c => c = "0"%char) ds ->
      default_cov_cutoff (text ("-"%char :: ds)) = Return (text ("-"%char :: ds))).
Proof.
  intros Hds Hsome.
  assert (Hfloat : Py.float (text ("-"%char :: ds)) = Some (Dec true (digits_value ds) 0)).
  { rewrite float_plain.
    - destruct (parse_integer ds Hds Hsome) as [_ Hparse]. now rewrite Hparse.
    - constructor; [reflexivity | now apply digits_plain]. }
  destruct (digits_value_from ds Hds 0) as (_ & Hzero & Hpos); [lia | ].
  split.
  - intros Hnz. apply rejected_exits.
    intros [H | [H | (v & Hv & Hnn)]]; try discriminate H.
    rewrite Hfloat in Hv. injection Hv as <-.
    change ((0 <? digits_value ds) = false) in Hnn.
    apply Z.ltb_ge in Hnn. specialize (Hpos Hnz). unfold digits_value in Hnn. lia.
  - intros Hzeros. apply accepted_returns. right; right.
    eexists. split; [exact Hfloat | ].
    change ((0 <? digits_value ds) = false). unfold digits_value.
    rewrite (Hzero Hzeros eq_refl). reflexivity.
Qed.

Lemma negative_integers_fail_witness :
  Forall (fun c => is_digit c = true) (list_ascii_of_string "105")
  /\ list_ascii_of_string "105" <> []
  /\ ((Exists (fun c => c <> "0"%char) (list_ascii_of_string "105") ->
       default_cov_cutoff "-105" = Exit cov_cutoff_err)
      /\ (Forall (fun c => c = "0"%char) (list_ascii_of_string "105") ->
          default_cov_cutoff "-105" = Return "-105")).
Proof.
  assert (H : Forall (fun c => is_digit c = true) (list_ascii_of_string "105"))
    by (repeat constructor).
  assert (Hne : list_ascii_of_string "105" <> []) by discriminate.
  split; [exact H | split; [exact Hne | ]].
  exact (negative_integers_fail (list_ascii_of_string "105") H Hne).
Defined.

End NumeralResults.

Section SpaceResults.

Import Assembler MoreProps.

Lemma float_space_facts (c : ascii) :
  float_space c = true ->
  Ascii.eqb (to_ascii_space c) "_" = false
  /\ is_digit (to_ascii_space c) = false
  /\ c <> "o"%char /\ c <> "a"%char.
Proof.
  destruct c as [[] [] [] [] [] [] [] []]; vm_compute; intros H;
    try discriminate H; repeat split; discriminate.
Qed.

(** What comes before the first character matters to the underscore rule
    only through its being a digit or an underscore. *)
Lemma drop_underscores_prev (prev other : ascii) (l : list ascii) :
  Ascii.eqb prev "_" = false -> is_digit prev = false ->
  Ascii.eqb other "_" = false -> is_digit other = false ->
  drop_underscores prev l = drop_underscores other l.
Proof.
  intros Hp Hpd Ho Hod. destruct l as [ | c l]; cbn [drop_underscores].
  - now rewrite Hp, Ho.
  - now rewrite Hp, Hpd, Ho, Hod.
Qed.

(** [float()] skips a leading white-space character. *)
Lemma float_skips_leading_space (c : ascii) (s : string) :
  float_space c = true -> Py.float (String c s) = Py.float s.
Proof.
  intros Hc. destruct (float_space_facts c Hc) as (Hunder & Hdigit & _).
  unfold Py.float. cbn [list_ascii_of_string map drop_underscores].
  rewrite Hunder. cbn [Ascii.eqb Bool.eqb andb].
  rewrite (drop_underscores_prev (to_ascii_space c) zero) by (assumption || reflexivity).
  destruct (drop_underscores zero (map to_ascii_space (list_ascii_of_string s)))
    as [t | ]; [ | reflexivity].
  cbn [option_map]. change (Ascii.eqb zero "_") with false. cbn [andb].
  unfold strip. cbn [lstrip].
  unfold float_space in Hc. now rewrite Hc.
Qed.

(** X8: a white-space character in front keeps a number valid and makes "off"
    and "auto" invalid: the string passes exactly when what follows the
    white space is a number not below zero, and it comes back with its
    white space. *)
Theorem leading_space_passes_numbers_only (c : ascii) (s : string) :
  float_space c = true ->
  (default_cov_cutoff (String c s) = Return (String c s)
   <-> exists value, Py.float s = Some value /\ non_negative value)
  /\ (default_cov_cutoff (String c s) = Exit cov_cutoff_err
      <-> ~ exists value, Py.float s = Some value /\ non_negative value)
  /\ default_cov_cutoff (String c "off") = Exit cov_cutoff_err
  /\ default_cov_cutoff (String c "auto") = Exit cov_cutoff_err.
Proof.
  intros Hc. destruct (float_space_facts c Hc) as (_ & _ & Ho & Ha).
  assert (Hnumber : forall t,
             accepted (String c t)
             <-> exists value, Py.float t = Some value /\ non_negative value).
  { intros t. unfold accepted. rewrite (float_skips_leading_space c t Hc).
    split; [ | now right; right].
    intros [H | [H | H]]; [ | | exact H]; injection H as H _; contradiction. }
  assert (Hword : forall t, Py.float t = None ->
                            default_cov_cutoff (String c t) = Exit cov_cutoff_err).
  { intros t Ht. apply rejected_exits. rewrite Hnumber.
    intros (value & Hv & _). congruence. }
  split; [ | split; [ | split; apply Hword; reflexivity]].
  - rewrite <- Hnumber.
    destruct (default_cov_cutoff_cases (String c s)) as [[Hacc Hrun] | [Hrej Hrun]];
      rewrite Hrun; split; intros H;
      try assumption; try reflexivity; try contradiction; discriminate.
  - rewrite <- Hnumber.
    destruct (default_cov_cutoff_cases (String c s)) as [[Hacc Hrun] | [Hrej Hrun]];
      rewrite Hrun; split; intros H;
      try assumption; try reflexivity; try contradiction; discriminate.
Qed.

Lemma leading_space_passes_numbers_only_witness :
  float_space " " = true
  /\ ((default_cov_cutoff " 0.5" = Return " 0.5"
       <-> exists value, Py.float "0.5" = Some value /\ non_negative value)
      /\ (default_cov_cutoff " 0.5" = Exit cov_cutoff_err
          <-> ~ exists value, Py.float "0.5" = Some value /\ non_negative value)
      /\ default_cov_cutoff " off" = Exit cov_cutoff_err
      /\ default_cov_cutoff " auto" = Exit cov_cutoff_err).
Proof.
  split; [reflexivity | ].
  exact (leading_space_passes_numbers_only " " "0.5" eq_refl).
Defined.

End SpaceResults.

Section WordResults.

Import Assembler MoreProps.

Lemma spells_map (body : list ascii) (word : string) :
  spells body word <-> map lower body = list_ascii_of_string word.
Proof.
  unfold spells, matches_nocase.
  destruct (list_eq_dec ascii_dec (map lower body) (list_ascii_of_string word));
    split; intros H; congruence.
Qed.

Lemma letter_facts (c : ascii) :
  existsb (Ascii.eqb (lower c)) (list_ascii_of_string "infinitynan") = true ->
  plain c = true /\ is_digit c = false /\ Ascii.eqb c "-" = false
  /\ Ascii.eqb c "+" = false /\ Ascii.eqb c "." = false.
Proof.
  destruct c as [[] [] [] [] [] [] [] []]; vm_compute; intros H;
    try discriminate H; repeat split.
Qed.

Lemma spelled_letters (body : list ascii) (word : string) :
  incl (list_ascii_of_string word) (list_ascii_of_string "infinitynan") ->
  spells body word ->
  Forall (fun c => existsb (Ascii.eqb (lower c))
                     (list_ascii_of_string "infinitynan") = true) body.
Proof.
  intros Hincl Hspell. apply spells_map in Hspell.
  apply Forall_forall. intros c Hc.
  apply existsb_exists. exists (lower c). split; [ | apply Ascii.eqb_refl].
  apply Hincl. rewrite <- Hspell. now apply in_map.
Qed.

Lemma letters_are_no_number (c : ascii) (rest : list ascii) :
  existsb (Ascii.eqb (lower c)) (list_ascii_of_string "infinitynan") = true ->
  parse_decimal (c :: rest) = None
  /\ parse_decimal ("+"%char :: c :: rest) = None
  /\ parse_decimal ("-"%char :: c :: rest) = None
  /\ take_sign (c :: rest) = (false, c :: rest).
Proof.
  intros Hc. destruct (letter_facts c Hc) as (_ & Hdigit & Hminus & Hplus & Hpoint).
  unfold parse_decimal. cbn [take_sign Ascii.eqb Bool.eqb].
  rewrite Hminus, Hplus. cbn [span_digits]. rewrite Hdigit, Hpoint.
  now repeat split.
Qed.

(** X9: every spelling of inf, infinity and nan, in any mix of letter cases,
    passes [default_cov_cutoff], with a plus sign in front as well.  With
    a minus sign in front, the spellings of nan still pass and those of
    inf and infinity are turned down. *)
Theorem infinity_and_nan_pass (body : list ascii) :
  spells body "inf" \/ spells body "infinity" \/ spells body "nan" ->
  default_cov_cutoff (text body) = Return (text body)
  /\ default_cov_cutoff (text ("+"%char :: body)) = Return (text ("+"%char :: body))
  /\ (spells body "nan" ->
      default_cov_cutoff (text ("-"%char :: body)) = Return (text ("-"%char :: body)))
  /\ (spells body "inf" \/ spells body "infinity" ->
      default_cov_cutoff (text ("-"%char :: body)) = Exit cov_cutoff_err).
Proof.
  intros Hword.
  assert (Hletters : Forall (fun c => existsb (Ascii.eqb (lower c))
                       (list_ascii_of_string "infinitynan") = true) body).
  { destruct Hword as [H | [H | H]]; eapply spelled_letters; try exact H;
      intros x Hx; cbn in *; tauto. }
  assert (Hplain : Forall (fun c => plain c = true) body).
  { eapply Forall_impl; [ | exact Hletters]. intros c Hc. now apply letter_facts. }
  destruct body as [ | c rest].
  { destruct Hword as [H | [H | H]]; apply spells_map in H; discriminate. }
  inversion Hletters as [ | ? ? Hc _]; subst.
  destruct (letters_are_no_number c rest Hc) as (Hbare & Hplus & Hminus & Hsign).
  assert (Hfloat : forall sign l,
             Forall (fun x => plain x = true) l ->
             parse_decimal l = None ->
             take_sign l = (sign, c :: rest) ->
             Py.float (text l)
             = if matches_nocase (c :: rest) "inf" || matches_nocase (c :: rest) "infinity"
               then Some (Inf sign)
               else if matches_nocase (c :: rest) "nan" then Some NaN else None).
  { intros sign l Hl Hnone Htake. rewrite (float_plain l Hl), Hnone.
    unfold parse_inf_or_nan. now rewrite Htake. }
  pose proof (Hfloat false (c :: rest) Hplain Hbare Hsign) as Hf.
  assert (Hfp := Hfloat false ("+"%char :: c :: rest)).
  specialize (Hfp ltac:(constructor; [reflexivity | exact Hplain]) Hplus eq_refl).
  assert (Hfm := Hfloat true ("-"%char :: c :: rest)).
  specialize (Hfm ltac:(constructor; [reflexivity | exact Hplain]) Hminus eq_refl).
  assert (Hsplit : (matches_nocase (c :: rest) "inf"
                    || matches_nocase (c :: rest) "infinity" = true)
                   \/ (matches_nocase (c :: rest) "inf"
                       || matches_nocase (c :: rest) "infinity" = false
                       /\ matches_nocase (c :: rest) "nan" = true)).
  { destruct Hword as [H | [H | H]].
    - left. unfold spells in H. now rewrite H.
    - left. unfold spells in H. rewrite H. apply orb_true_r.
    - right. split; [ | exact H]. apply spells_map in H.
      apply orb_false_iff. split; apply not_true_iff_false; intros Hother;
        apply (proj1 (spells_map _ _)) in Hother; rewrite H in Hother; discriminate. }
  destruct Hsplit as [Hinf | [Hnotinf Hnan]].
  - rewrite Hinf in Hf, Hfp, Hfm.
    split; [ | split; [ | split]].
    + apply accepted_returns. right; right. exists (Inf false). now split.
    + apply accepted_returns. right; right. exists (Inf false). now split.
    + intros Hn. exfalso. apply orb_true_iff in Hinf.
      apply spells_map in Hn.
      destruct Hinf as [H | H]; apply (proj1 (spells_map _ _)) in H;
        rewrite Hn in H; discriminate.
    + intros _. apply rejected_exits.
      intros [H | [H | (v & Hv & Hnn)]]; try discriminate H.
      rewrite Hfm in Hv. injection Hv as <-. discriminate Hnn.
  - rewrite Hnotinf, Hnan in Hf, Hfp, Hfm.
    split; [ | split; [ | split]].
    + apply accepted_returns. right; right. exists NaN. now split.
    + apply accepted_returns. right; right. exists NaN. now split.
    + intros _. apply accepted_returns. right; right. exists NaN. now split.
    + intros [H | H]; unfold spells in H; rewrite H in Hnotinf;
        [discriminate | rewrite orb_true_r in Hnotinf; discriminate].
Qed.

Lemma infinity_and_nan_pass_witness :
  (spells (list_ascii_of_string "NaN") "inf"
   \/ spells (list_ascii_of_string "NaN") "infinity"
   \/ spells (list_ascii_of_string "NaN") "nan")
  /\ (default_cov_cutoff "NaN" = Return "NaN"
      /\ default_cov_cutoff "+NaN" = Return "+NaN"
      /\ (spells (list_ascii_of_string "NaN") "nan" ->
          default_cov_cutoff "-NaN" = Return "-NaN")
      /\ (spells (list_ascii_of_string "NaN") "inf"
          \/ spells (list_ascii_of_string "NaN") "infinity" ->
          default_cov_cutoff "-NaN" = Exit cov_cutoff_err)).
Proof.
  assert (H : spells (list_ascii_of_string "NaN") "inf"
              \/ spells (list_ascii_of_string "NaN") "infinity"
              \/ spells (list_ascii_of_string "NaN") "nan")
    by (right; right; reflexivity).
  split; [exact H | ].
  exact (infinity_and_nan_pass (list_ascii_of_string "NaN") H).
Defined.

End WordResults.

(** ** Shard builder: further results *)

Section ExportResults.

Import MoreProps.

Lemma unlines_app (a b : list string) :
  unlines (a ++ b) = unlines a ++ unlines b.
Proof.
  induction a as [ | line a IH]; [reflexivity | ].
  cbn [app unlines fold_right]. fold (unlines (a ++ b)). fold (unlines a).
  now rewrite IH, !append_assoc.
Qed.

Lemma fill_blast_fasta_text (db : store) (limit offset : Z) :
  fill_blast_fasta db (limit, offset)
  = unlines (flat_map fasta_entry (get_sequences_in_shard db limit offset)).
Proof. unfold fill_blast_fasta. now rewrite write_rows. Qed.

Lemma window_split (rows : list sequence_record) (a b : nat) :
  firstn (a + b) rows = (firstn a rows ++ firstn b (skipn a rows))%list.
Proof.
  revert rows. induction a as [ | a IH]; intros rows; [reflexivity | ].
  destruct rows as [ | r rows]; cbn.
  - now rewrite firstn_nil.
  - now rewrite IH.
Qed.

(** The files of windows that follow one another without gap, from
    [start] to [stop], are together the file of the one window from
    [start] to [stop]. *)
Lemma shard_files_tile (db : store) (rows : list sequence_record) :
  reads_rows db rows ->
  forall windows start stop,
    0 <= start ->
    Forall (fun window => 0 <= fst window) windows ->
    tiles start windows stop ->
    shard_files db windows = fill_blast_fasta db (stop - start, start).
Proof.
  intros [_ Hread].
  induction windows as [ | [limit offset] windows IH];
    intros start stop Hstart Hlimits Htiles; cbn [tiles] in Htiles.
  - subst stop. cbn [shard_files fold_right].
    rewrite fill_blast_fasta_text, Hread by lia.
    now rewrite Z.sub_diag.
  - destruct Htiles as [-> Htiles].
    inversion Hlimits as [ | ? ? Hlimit Hrest]; subst. cbn [fst] in Hlimit.
    cbn [shard_files fold_right]. fold (shard_files db windows).
    rewrite (IH (start + limit) stop) by (assumption || lia).
    assert (Hstop : start + limit <= stop).
    { clear - Hrest Htiles Hlimit. revert Htiles Hrest.
      generalize (start + limit). induction windows as [ | [l o] ws IHws];
        intros from Htiles Hrest; cbn [tiles] in Htiles.
      - lia.
      - destruct Htiles as [-> Htiles]. inversion Hrest; subst. cbn [fst] in *.
        specialize (IHws (from + l) Htiles ltac:(assumption)). lia. }
    rewrite !fill_blast_fasta_text, !Hread by lia.
    rewrite <- unlines_app, <- flat_map_app. f_equal. f_equal.
    replace (Z.to_nat (stop - start))
      with (Z.to_nat limit + Z.to_nat (stop - (start + limit)))%nat by lia.
    rewrite window_split. f_equal.
    rewrite skipn_skipn. f_equal. f_equal. lia.
Qed.

(** X10: the shards lose and repeat nothing: for a store that has a row, the
    files written for the windows of [assign_seqs_to_shards], one after
    the other, are the file of the whole store, every row once and in
    scan order. *)
Theorem shard_files_cover_store (db : store) (rows : list sequence_record)
    (shard_count : Z) :
  reads_rows db rows ->
  rows <> [] ->
  1 <= shard_count ->
  shard_files db (assign_seqs_to_shards db shard_count)
  = unlines (flat_map fasta_entry rows).
Proof.
  intros Hreads Hrows Hcount.
  assert (Hlen : 1 <= get_sequence_count db).
  { destruct Hreads as [-> _]. destruct rows; [contradiction | cbn; lia]. }
  unfold assign_seqs_to_shards.
  pose proof (shard_offsets_sorted db shard_count Hcount ltac:(lia)) as Hsorted.
  pose proof (shard_offsets_within db shard_count Hcount ltac:(lia) (or_introl Hlen))
    as Hwithin.
  rewrite (shard_files_tile db rows Hreads _ 0 (get_sequence_count db)).
  - rewrite fill_blast_fasta_text. destruct Hreads as [Hn Hread].
    rewrite Hread by lia. rewrite Z.sub_0_r, Hn, Nat2Z.id.
    cbn [Z.to_nat skipn]. now rewrite firstn_all.
  - lia.
  - now apply shard_windows_limits, sorted_snoc.
  - unfold shard_offsets. apply shard_windows_tile.
Qed.

Lemma rows_store_reads (rows : list sequence_record) :
  reads_rows (rows_store rows) rows.
Proof. split; [reflexivity | intros; reflexivity]. Qed.

Lemma shard_files_cover_store_witness :
  reads_rows (rows_store fasta_rows) fasta_rows
  /\ fasta_rows <> []
  /\ 1 <= 3
  /\ shard_files (rows_store fasta_rows)
       (assign_seqs_to_shards (rows_store fasta_rows) 3)
     = unlines (flat_map fasta_entry fasta_rows).
Proof.
  assert (H : reads_rows (rows_store fasta_rows) fasta_rows)
    by apply rows_store_reads.
  assert (Hne : fasta_rows <> []) by discriminate.
  split; [exact H | split; [exact Hne | split; [lia | ]]].
  exact (shard_files_cover_store (rows_store fasta_rows) fasta_rows 3 H Hne
           ltac:(lia)).
Defined.

End ExportResults.

Section ReadBackResults.

Import MoreProps.

(** A name without slash followed by nothing or by a slash and more: the
    name ends at the first slash. *)
Lemma name_ends_at_slash (n1 : string) :
  forall n2 e1 e2,
    has_slash n1 = false -> has_slash n2 = false ->
    (e1 = EmptyString \/ exists b, e1 = "/" ++ b) ->
    (e2 = EmptyString \/ exists b, e2 = "/" ++ b) ->
    n1 ++ e1 = n2 ++ e2 ->
    n1 = n2 /\ e1 = e2.
Proof.
  induction n1 as [ | c n1 IH]; intros n2 e1 e2 H1 H2 He1 He2 Heq.
  - destruct n2 as [ | c2 n2]; [now split | ].
    cbn in Heq, H2. apply orb_false_iff in H2 as [Hc2 _].
    destruct He1 as [-> | [b ->]]; [discriminate | ].
    cbn in Heq. injection Heq as <- _. discriminate.
  - cbn in H1. apply orb_false_iff in H1 as [Hc H1].
    destruct n2 as [ | c2 n2].
    + cbn in Heq. destruct He2 as [-> | [b ->]]; [discriminate | ].
      cbn in Heq. injection Heq as -> _. discriminate.
    + cbn in Heq, H2. apply orb_false_iff in H2 as [_ H2].
      injection Heq as <- Heq.
      destruct (IH n2 e1 e2 H1 H2 He1 He2 Heq) as [-> ->]. now split.
Qed.

Lemma fasta_header_reads_back (r1 r2 : sequence_record) :
  has_slash (name r1) = false -> has_slash (name r2) = false ->
  fasta_header r1 = fasta_header r2 ->
  name r1 = name r2 /\ batch_id r1 = batch_id r2.
Proof.
  intros H1 H2 Heq. unfold fasta_header in Heq. cbn zeta in Heq.
  injection Heq as Heq.
  assert (Hend : forall r,
             (if String.eqb (batch_id r) EmptyString then EmptyString
              else "/" ++ batch_id r) = EmptyString
             \/ exists b,
                 (if String.eqb (batch_id r) EmptyString then EmptyString
                  else "/" ++ batch_id r) = "/" ++ b).
  { intros r. destruct (String.eqb (batch_id r) EmptyString); [now left | right; eauto]. }
  destruct (name_ends_at_slash _ _ _ _ H1 H2 (Hend r1) (Hend r2) Heq) as [Hname Hbatch].
  split; [assumption | ].
  destruct (String.eqb_spec (batch_id r1) EmptyString) as [E1 | N1];
    destruct (String.eqb_spec (batch_id r2) EmptyString) as [E2 | N2];
    try congruence; try discriminate.
  now injection Hbatch.
Qed.

Lemma fasta_entries_read_back (rows1 : list sequence_record) :
  forall rows2,
    Forall readable rows1 -> Forall readable rows2 ->
    flat_map fasta_entry rows1 = flat_map fasta_entry rows2 ->
    rows1 = rows2.
Proof.
  induction rows1 as [ | r1 rows1 IH]; intros [ | r2 rows2] Hr1 Hr2 Heq;
    try reflexivity; try discriminate.
  inversion Hr1 as [ | ? ? [_ Hs1] Hrest1]; subst.
  inversion Hr2 as [ | ? ? [_ Hs2] Hrest2]; subst.
  cbn [flat_map] in Heq. rewrite !fasta_header_entry in Heq. cbn [app] in Heq.
  injection Heq as Hheader Hseq Htail.
  assert (Hsame : fasta_header r1 = fasta_header r2)
    by (unfold fasta_header; cbn; now f_equal).
  destruct (fasta_header_reads_back r1 r2 Hs1 Hs2 Hsame) as [Hname Hbatch].
  rewrite (IH rows2 Hrest1 Hrest2 Htail).
  destruct r1, r2; cbn in *; congruence.
Qed.

(** X11: the file of [fill_blast_fasta] keeps everything of rows whose fields
    hold no line feed and whose names hold no slash: two windows of such
    rows with the same file are the same rows, name, batch id and
    sequence, in the same order. *)
Theorem fill_blast_fasta_reads_back
    (db1 db2 : store) (limit1 offset1 limit2 offset2 : Z) :
  Forall readable (get_sequences_in_shard db1 limit1 offset1) ->
  Forall readable (get_sequences_in_shard db2 limit2 offset2) ->
  fill_blast_fasta db1 (limit1, offset1) = fill_blast_fasta db2 (limit2, offset2) ->
  get_sequences_in_shard db1 limit1 offset1 = get_sequences_in_shard db2 limit2 offset2.
Proof.
  intros H1 H2 Heq.
  assert (Hlines : forall rows, Forall readable rows ->
                     lines (unlines (flat_map fasta_entry rows))
                     = flat_map fasta_entry rows).
  { intros rows Hrows. apply lines_unlines, fasta_entry_one_line.
    eapply Forall_impl; [ | exact Hrows]. now intros r [Hr _]. }
  rewrite !fill_blast_fasta_text in Heq.
  apply (f_equal lines) in Heq. rewrite !Hlines in Heq by assumption.
  now apply fasta_entries_read_back.
Qed.

Lemma fill_blast_fasta_reads_back_witness :
  Forall readable (get_sequences_in_shard mocked_store 100 200)
  /\ Forall readable (get_sequences_in_shard (rows_store fasta_rows) 4 0)
  /\ fill_blast_fasta mocked_store (100, 200)
     = fill_blast_fasta (rows_store fasta_rows) (4, 0)
  /\ get_sequences_in_shard mocked_store 100 200
     = get_sequences_in_shard (rows_store fasta_rows) 4 0.
Proof.
  assert (H1 : Forall readable (get_sequences_in_shard mocked_store 100 200))
    by (repeat constructor).
  assert (H2 : Forall readable (get_sequences_in_shard (rows_store fasta_rows) 4 0))
    by (repeat constructor).
  assert (H : fill_blast_fasta mocked_store (100, 200)
              = fill_blast_fasta (rows_store fasta_rows) (4, 0)) by reflexivity.
  split; [exact H1 | split; [exact H2 | split; [exact H | ]]].
  exact (fill_blast_fasta_reads_back mocked_store (rows_store fasta_rows)
           100 200 4 0 H1 H2 H).
Defined.

(** A slash in a name is what the file cannot keep: the row named seq5/3
    with no batch id, which [test_load_seqs] has in the store, is written
    like a row named seq5 with the batch id 3. *)
Example fasta_header_slash_collision :
  fasta_header (row "seq5/3" EmptyString "A") = fasta_header (row "seq5" "3" "A").
Proof. reflexivity. Qed.

End ReadBackResults.

(** ** The preprocessing run: further results *)

Section RunShapeResults.

Import MoreProps.






End RunShapeResults.
